(** * fake_api_ingestion: a model of [utils/project_classes.py]

    The pipeline paginates a REST endpoint, validates every page, appends it
    to the staging table [data.raw_data] and finally exports
    [data.final_table] to a csv file.  The Python code is embedded as
    executable Rocq functions over an explicit world (logger output,
    configuration objects, database, issued requests, output file); the
    collaborators the code only talks to (HTTP server, database faults,
    the view definition, pandas' timestamp parser) are fields of an
    environment record. *)

From Stdlib Require Import ZArith List String Ascii Bool Lia DecimalString.
Import ListNotations.
Local Open Scope string_scope.
Local Open Scope list_scope.

Set Implicit Arguments.

(* ================================================================== *)
(** ** Python values, exceptions and outcomes *)

(** The exception classes the module raises or lets through.  All of them
    derive from [Exception]. *)
Inductive exn_class : Type :=
| ValueError | IndexError | KeyError | TypeError | AttributeError
| HTTPError
| OperationalError | ProgrammingError | IntegrityError | RaiseException
| OtherError.

(** An exception object: its class and [str(e)]. *)
Record exn : Type := mkExn { exn_cls : exn_class; exn_msg : string }.

(** How a call ends.  [Diverge] is only produced by the fuel of
    [while True]. *)
Inductive outcome (A : Type) : Type :=
| Ret (a : A)
| Raise (e : exn)
| Diverge.
Arguments Raise {A} e.
Arguments Diverge {A}.

(** Values held by the configuration: [int(v) if v.isdigit() else v]. *)
Inductive value : Type :=
| VInt (z : Z)
| VStr (s : string).

(** State and exception monad: the state survives a raise. *)
Definition M (S A : Type) : Type := S -> S * outcome A.

Definition ret {S A} (a : A) : M S A := fun s => (s, Ret a).
Definition raise {S A} (e : exn) : M S A := fun s => (s, Raise e).
Definition bind {S A B} (c : M S A) (k : A -> M S B) : M S B :=
  fun s =>
    match c s with
    | (s1, Ret a) => k a s1
    | (s1, Raise e) => (s1, Raise e)
    | (s1, Diverge) => (s1, Diverge)
    end.

Notation "x <- c ;; k" := (bind c (fun x => k))
  (at level 61, c at next level, right associativity).
Notation "' pat <- c ;; k" := (bind c (fun x => match x with pat => k end))
  (at level 61, pat pattern, c at next level, right associativity).
Notation "c ;;; k" := (bind c (fun _ => k))
  (at level 61, right associativity).

(** Pure computations that may raise. *)
Definition obind {A B} (o : outcome A) (k : A -> outcome B) : outcome B :=
  match o with
  | Ret a => k a
  | Raise e => Raise e
  | Diverge => Diverge
  end.

(* ================================================================== *)
(** ** Python dicts

    A dict keeps insertion order, which the code observes when it iterates
    over [self.table_values]; it is an association list without duplicate
    keys.  Assigning to a present key keeps its position. *)

Section Dict.
Context {V : Type}.

Definition dict := list (string * V).

Fixpoint dict_get (k : string) (d : dict) : option V :=
  match d with
  | [] => None
  | (k', v) :: t => if String.eqb k k' then Some v else dict_get k t
  end.

Fixpoint dict_set (k : string) (v : V) (d : dict) : dict :=
  match d with
  | [] => [(k, v)]
  | (k', v') :: t =>
      if String.eqb k k' then (k', v) :: t else (k', v') :: dict_set k v t
  end.

Definition dict_keys (d : dict) : list string := map fst d.

Definition dict_has (k : string) (d : dict) : bool :=
  match dict_get k d with Some _ => true | None => false end.
End Dict.
Arguments dict V : clear implicits.

(** The configuration: section name -> key -> value. *)
Definition Config : Type := dict (dict value).

(* ================================================================== *)
(** ** Strings

    A [str] is read as a sequence of code points U+0000..U+00FF, one per
    [ascii].  In that range [str.isdigit] accepts the ten decimal digits and
    the superscripts U+00B2, U+00B3 and U+00B9; [int] accepts only the
    decimal digits. *)

Definition is_decimal_char (c : ascii) : bool :=
  (48 <=? nat_of_ascii c)%nat && (nat_of_ascii c <=? 57)%nat.

Definition is_digit_char (c : ascii) : bool :=
  is_decimal_char c
  || (nat_of_ascii c =? 178)%nat
  || (nat_of_ascii c =? 179)%nat
  || (nat_of_ascii c =? 185)%nat.

Fixpoint all_chars (p : ascii -> bool) (s : string) : bool :=
  match s with
  | EmptyString => true
  | String c t => p c && all_chars p t
  end.

(** [v.isdigit()]: false on the empty string. *)
Definition isdigit (v : string) : bool :=
  match v with
  | EmptyString => false
  | _ => all_chars is_digit_char v
  end.

(** Non-empty and made of [0]..[9] only. *)
Definition isdecimal (v : string) : bool :=
  match v with
  | EmptyString => false
  | _ => all_chars is_decimal_char v
  end.

Fixpoint digits_value (acc : Z) (s : string) : Z :=
  match s with
  | EmptyString => acc
  | String c t => digits_value (10 * acc + Z.of_nat (nat_of_ascii c - 48)) t
  end.

(** [str(n)] for an integer. *)
Definition str_of_Z (z : Z) : string := NilEmpty.string_of_int (Z.to_int z).
Definition str_of_nat (n : nat) : string := str_of_Z (Z.of_nat n).

(** [sys.get_int_max_str_digits()] at its default: the longest run of
    digits [int] converts. *)
Definition int_max_str_digits : nat := 4300.

(** The decimal digits [int] reads from the start of the string. *)
Fixpoint leading_decimals (s : string) : nat :=
  match s with
  | EmptyString => 0
  | String c t => if is_decimal_char c then S (leading_decimals t) else 0
  end.

Definition too_long (v : string) : bool :=
  (int_max_str_digits <? leading_decimals v)%nat.

(** [int(v)] on the strings the guard [v.isdigit()] lets through: no sign,
    blank or underscore can occur in them, so the literal is valid exactly
    when every character is a decimal digit; a run of more than
    [int_max_str_digits] decimal digits is refused before that. *)
Definition py_int (v : string) : outcome Z :=
  if too_long v then
    Raise (mkExn ValueError
             ("Exceeds the limit (" ++ str_of_nat int_max_str_digits
                ++ " digits) for integer string conversion: value has "
                ++ str_of_nat (leading_decimals v)
                ++ " digits; use sys.set_int_max_str_digits() to increase the limit"))
  else if isdecimal v then Ret (digits_value 0 v)
  else Raise (mkExn ValueError
                ("invalid literal for int() with base 10: '" ++ v ++ "'")).

(* ================================================================== *)
(** ** Logger *)

Inductive level : Type := DEBUG | INFO | CRITICAL.

(** The records emitted so far, oldest first. *)
Definition Logger : Type := list (level * string).

Definition emit (l : level) (msg : string) (lg : Logger) : Logger :=
  lg ++ [(l, msg)].

(* ================================================================== *)
(** ** [parse_config]

    [ConfigParser] is a collaborator.  [parse_config] below is the function
    on a parser that has read the file and yields the pairs of every
    section: the sections in file order with what [parser.items(section)]
    gives.  [parse_config_file] further down is the function from the file
    on, where [parser.read] or [parser.items] can raise. *)

Definition ConfigParser : Type := list (string * list (string * string)).

Definition sections (parser : ConfigParser) : list string := map fst parser.

Definition has_section (parser : ConfigParser) (s : string) : bool :=
  existsb (String.eqb s) (sections parser).

Definition items (parser : ConfigParser) (s : string) : list (string * string) :=
  match dict_get s parser with
  | Some kvs => kvs
  | None => []
  end.

(** [int(v) if v.isdigit() else v] *)
Definition convert_value (v : string) : outcome value :=
  if isdigit v then obind (py_int v) (fun z => Ret (VInt z))
  else Ret (VStr v).

(** The inner comprehension [{k: ... for k, v in parser.items(section)}]. *)
Fixpoint convert_items (kvs : list (string * string)) (acc : dict value)
  : outcome (dict value) :=
  match kvs with
  | [] => Ret acc
  | (k, v) :: t =>
      obind (convert_value v) (fun x => convert_items t (dict_set k x acc))
  end.

(** The outer comprehension [{section: {...} for section in parser.sections()}]. *)
Fixpoint convert_sections (parser : ConfigParser) (secs : list string)
  (acc : Config) : outcome Config :=
  match secs with
  | [] => Ret acc
  | s :: t =>
      obind (convert_items (items parser s) [])
            (fun d => convert_sections parser t (dict_set s d acc))
  end.

Definition missing_section_msg (required_section filename : string) : string :=
  "Required section '" ++ required_section ++ "' not found in the "
    ++ filename ++ " file".

Definition parse_config (filename required_section : string)
  (parser : ConfigParser) : M Logger Config :=
  fun logger =>
    if negb (has_section parser required_section) then
      let msg := missing_section_msg required_section filename in
      (emit CRITICAL msg logger, Raise (mkExn ValueError msg))
    else
      (logger, convert_sections parser (sections parser) []).

(** What the file is to [ConfigParser]: either [parser.read] raises (no
    section header, a section or an option given twice, a line it cannot
    parse), or it leaves the sections in the parser, where
    [parser.items(section)] can still raise on a value it cannot interpolate
    (a bare percent sign). *)
Inductive config_file : Type :=
| Unreadable (e : exn)
| Readable (parser : ConfigParser) (items_error : string -> option exn).

(** The outer comprehension when [parser.items(section)] can raise. *)
Fixpoint convert_sections_file (items_error : string -> option exn)
  (parser : ConfigParser) (secs : list string) (acc : Config)
  : outcome Config :=
  match secs with
  | [] => Ret acc
  | s :: t =>
      match items_error s with
      | Some e => Raise e
      | None =>
          obind (convert_items (items parser s) [])
                (fun d => convert_sections_file items_error parser t
                            (dict_set s d acc))
      end
  end.

(** [parse_config], from the file on. *)
Definition parse_config_file (filename required_section : string)
  (file : config_file) : M Logger Config :=
  fun logger =>
    match file with
    | Unreadable e => (logger, Raise e)
    | Readable parser items_error =>
        if negb (has_section parser required_section) then
          let msg := missing_section_msg required_section filename in
          (emit CRITICAL msg logger, Raise (mkExn ValueError msg))
        else
          (logger,
           convert_sections_file items_error parser (sections parser) [])
    end.

(* ================================================================== *)
(** ** DataFrames and the database *)

Inductive cell : Type :=
| CInt (z : Z)
| CStr (s : string)
| CTime (t : Z)
| CNull.

(** A frame as [pd.DataFrame(results)] builds it from a list of records:
    the column labels and one list of cells per row. *)
Record DataFrame : Type := mkDF {
  df_columns : list string;
  df_rows : list (list cell)
}.

(** [len(df)] *)
Definition df_len (df : DataFrame) : nat := List.length (df_rows df).

(** [df.empty]: some axis has length 0. *)
Definition df_empty (df : DataFrame) : bool :=
  (List.length (df_columns df) =? 0)%nat || (List.length (df_rows df) =? 0)%nat.

(** A stored row of [data.raw_data]: column name and value. *)
Definition Row : Type := list (string * cell).

Definition rows_of (df : DataFrame) : list Row :=
  map (combine (df_columns df)) (df_rows df).

(** The statements the module sends through [query_local_db]. *)
Inductive query : Type :=
| TruncateRaw
| SelectFinal
| SelectFinalColumns
| SelectPing.

Definition sql (q : query) : string :=
  match q with
  | TruncateRaw => "truncate table data.raw_data;"
  | SelectFinal => "SELECT * FROM data.final_table;"
  | SelectFinalColumns => "
                SELECT column_name
                FROM information_schema.columns
                WHERE table_schema = 'data' AND table_name = 'final_table'
            "
  | SelectPing => "SELECT 'janwashere';"
  end.

(** What [query_local_db] returns: the fetched rows, or the one-element
    list [["No data to return"]] when the statement has no result set. *)
Inductive qresult : Type :=
| RowSet (rows : list (list cell))
| NoResultSet.

(** [len(result)] *)
Definition result_len (r : qresult) : nat :=
  match r with
  | RowSet rows => List.length rows
  | NoResultSet => 1
  end.

(* ================================================================== *)
(** ** The environment and the world *)

(** [urljoin(base, path)], kept symbolic. *)
Record url : Type := mkUrl { url_base : string; url_path : string }.

Record request : Type := mkReq { req_url : url; req_params : dict value }.

(** Pagination metadata of one response. *)
Record page_info : Type := mkPage { page : Z; per_page : Z; total : Z }.

(** What one call of [requests.get] leads to in [get_api_data]:
    [Failure e] when the call itself raises [e] (a URL it refuses before
    anything is sent, such as one without a scheme, or a transport error),
    or [raise_for_status], the JSON decoding, a missing field or an
    [int(...)] coercion does; otherwise the frame built from [results] and
    the three coerced integers. *)
Inductive reply : Type :=
| Failure (e : exn)
| Envelope (results : DataFrame) (info : page_info).

Record Env : Type := mkEnv {
  (** what the [n]-th call of [requests.get] of the run leads to *)
  api_server : nat -> request -> reply;
  (** the error, if any, the [n]-th database operation of the run meets *)
  db_fault : nat -> option exn;
  (** [data.final_table], defined in the database over [data.raw_data] *)
  final_table : list Row -> list (list cell);
  final_table_columns : list string;
  (** [pd.to_datetime] on one value: the timestamp, or the error raised
      when it cannot be parsed *)
  to_datetime : cell -> exn + cell;
  (** the error, if any, writing the csv file meets, and what the failed
      write leaves in the file when it had already opened it *)
  to_csv_fault : option (exn * option DataFrame)
}.

(** The state a run acts on.  [attrs] holds the attributes [__init__] sets
    from the configuration: [setattr(self, section, params)] stores the very
    dict objects of [config_dict], so [attrs] is the configuration itself.
    [logger] holds the records emitted through the logger [create_logger]
    built, [requests] the calls of [requests.get] made so far.  The methods
    below are the methods of an object whose own attributes ([self.logger],
    [self.engine], [self.output_folder]) and methods are the ones the class
    gives it; [Truvi_main] further down is the call on the object as
    [__init__] leaves it, where a section can have taken the place of the
    logger. *)
Record World : Type := mkWorld {
  logger : Logger;
  attrs : Config;
  raw_data : list Row;
  db_ops : nat;
  requests : list request;
  output_folder : string;
  final_csv : option DataFrame
}.

Definition log (l : level) (msg : string) (w : World) : World :=
  mkWorld (emit l msg (logger w)) (attrs w) (raw_data w) (db_ops w)
          (requests w) (output_folder w) (final_csv w).

Definition set_attrs (c : Config) (w : World) : World :=
  mkWorld (logger w) c (raw_data w) (db_ops w) (requests w) (output_folder w) (final_csv w).

Definition set_raw_data (t : list Row) (w : World) : World :=
  mkWorld (logger w) (attrs w) t (db_ops w) (requests w) (output_folder w) (final_csv w).

Definition tick_db (w : World) : World :=
  mkWorld (logger w) (attrs w) (raw_data w) (S (db_ops w)) (requests w)
          (output_folder w) (final_csv w).

Definition record_request (r : request) (w : World) : World :=
  mkWorld (logger w) (attrs w) (raw_data w) (db_ops w) (requests w ++ [r])
          (output_folder w) (final_csv w).

Definition set_final_csv (df : DataFrame) (w : World) : World :=
  mkWorld (logger w) (attrs w) (raw_data w) (db_ops w) (requests w)
          (output_folder w) (Some df).

(** [Truvi.__init__]: every section becomes an attribute.  The logger,
    the engine and the output folder are assigned before, see [intact] and
    [Truvi_main] for the sections that take their place. *)
Definition Truvi_init (lg : Logger) (config_dict : Config) (db : list Row)
  (folder : string) (csv : option DataFrame) : World :=
  mkWorld lg config_dict db 0 [] folder csv.

(** [self.<name>] for a configuration section. *)
Definition getattr (name : string) : M World (dict value) :=
  fun w =>
    match dict_get name (attrs w) with
    | Some d => (w, Ret d)
    | None =>
        (w, Raise (mkExn AttributeError
                     ("'Truvi' object has no attribute '" ++ name ++ "'")))
    end.

Definition dquote : string := String (ascii_of_nat 34) EmptyString.

Section Run.
Variable env : Env.

(* ---------------------------------------------------------------- *)
(** *** [query_local_db] *)

(** The four psycopg2 classes of the [except] clause. *)
Definition expected_db_error (e : exn) : bool :=
  match exn_cls e with
  | OperationalError | ProgrammingError | IntegrityError | RaiseException =>
      true
  | _ => false
  end.

Definition db_exec (q : query) (w : World) : World * qresult :=
  match q with
  | TruncateRaw => (set_raw_data [] w, NoResultSet)
  | SelectFinal => (w, RowSet (final_table env (raw_data w)))
  | SelectFinalColumns =>
      (w, RowSet (map (fun c => [CStr c]) (final_table_columns env)))
  | SelectPing => (w, RowSet [[CStr "janwashere"]])
  end.

(** A failing statement is rolled back by [engine.begin()]; the expected
    classes are logged and re-raised, any other goes through untouched. *)
Definition query_local_db (q : query) : M World qresult :=
  fun w =>
    match db_fault env (db_ops w) with
    | Some e =>
        if expected_db_error e then
          (log CRITICAL (sql q ++ " failed with " ++ exn_msg e) (tick_db w),
           Raise e)
        else (tick_db w, Raise e)
    | None =>
        let '(w1, r) := db_exec q (tick_db w) in
        (log DEBUG (sql q ++ " executed") w1, Ret r)
    end.

(* ---------------------------------------------------------------- *)
(** *** [Truvi.get_api_data] *)

(** [urljoin(self.api['base_url'], "api/bookings")]: an empty or zero
    base gives the path back, any other integer cannot be mixed with a
    [str]. *)
Definition urljoin (base : value) (path : string) : outcome url :=
  match base with
  | VStr b => Ret (mkUrl b path)
  | VInt 0%Z => Ret (mkUrl "" path)
  | VInt _ => Raise (mkExn TypeError "Cannot mix str and non-str arguments")
  end.

Definition get_api_data (api_parameters : dict value)
  : M World (DataFrame * page_info) :=
  api <- getattr "api" ;;
  match dict_get "base_url" api with
  | None => raise (mkExn KeyError "'base_url'")
  | Some base =>
      match urljoin base "api/bookings" with
      | Ret u =>
          fun w =>
            let req := mkReq u api_parameters in
            match api_server env (List.length (requests w)) req with
            | Failure e => (record_request req w, Raise e)
            | Envelope results info =>
                (record_request req w, Ret (results, info))
            end
      | Raise e => raise e
      | Diverge => fun w => (w, Diverge)
      end
  end.

(* ---------------------------------------------------------------- *)
(** *** [Truvi.check_write_df]

    The frame is a mutable object handed over by reference, so it is part
    of the state of the call. *)

Definition on_world {A} (c : M World A) : M (World * DataFrame) A :=
  fun s =>
    let '(w1, r) := c (fst s) in ((w1, snd s), r).

Definition logm (l : level) (msg : string) : M World unit :=
  fun w => (log l msg w, Ret tt).

(** [pd.to_datetime] applied to the cells of column [key] in one row. *)
Fixpoint convert_cells (key : string) (cols : list string)
  (cells : list cell) : exn + list cell :=
  match cols, cells with
  | c :: cs, x :: xs =>
      match (if String.eqb key c then to_datetime env x else inr x) with
      | inr x' =>
          match convert_cells key cs xs with
          | inr xs' => inr (x' :: xs')
          | inl e => inl e
          end
      | inl e => inl e
      end
  | _, _ => inr cells
  end.

Fixpoint convert_rows (key : string) (cols : list string)
  (rows : list (list cell)) : exn + list (list cell) :=
  match rows with
  | [] => inr []
  | r :: rs =>
      match convert_cells key cols r with
      | inr r' =>
          match convert_rows key cols rs with
          | inr rs' => inr (r' :: rs')
          | inl e => inl e
          end
      | inl e => inl e
      end
  end.

(** [df[key] = pd.to_datetime(df[key])] *)
Definition convert_column (key : string) : M (World * DataFrame) unit :=
  fun s =>
    let df := snd s in
    match convert_rows key (df_columns df) (df_rows df) with
    | inr rows => ((fst s, mkDF (df_columns df) rows), Ret tt)
    | inl e => (s, Raise e)
    end.

(** The loop [for key in self.table_values]. *)
Fixpoint convert_dates (keys : list string) : M (World * DataFrame) unit :=
  match keys with
  | [] => ret tt
  | key :: rest =>
      fun s =>
        if existsb (String.eqb key) (df_columns (snd s)) then
          (convert_column key ;;;
           on_world (logm DEBUG ("Converted " ++ key ++ " to datetime")) ;;;
           convert_dates rest) s
        else convert_dates rest s
  end.

(** [df.to_sql(schema="data", name="raw_data", if_exists="append")] *)
Definition to_sql (df : DataFrame) : M World unit :=
  fun w =>
    match db_fault env (db_ops w) with
    | Some e => (tick_db w, Raise e)
    | None => (set_raw_data (raw_data w ++ rows_of df) (tick_db w), Ret tt)
    end.

Definition wrong_columns (cols : nat) : exn :=
  mkExn IndexError ("df has " ++ str_of_nat cols ++ " columns, expected 5").

Definition check_write_df : M (World * DataFrame) unit :=
  fun s =>
    let df := snd s in
    if df_empty df then on_world (logm INFO "Empty DataFrame") s
    else
      let cols := List.length (df_columns df) in
      if negb (cols =? 5)%nat then raise (wrong_columns cols) s
      else
        (table_values <- on_world (getattr "table_values") ;;
         convert_dates (dict_keys table_values) ;;;
         (fun s1 => on_world (to_sql (snd s1)) s1) ;;;
         on_world (logm DEBUG "Dataframe written to database")) s.

(* ---------------------------------------------------------------- *)
(** *** [Truvi.post_processing] *)

Definition label_of (c : cell) : string :=
  match c with
  | CStr s => s
  | CInt z => str_of_Z z
  | CTime t => str_of_Z t
  | CNull => "None"
  end.

(** [[row[0] for row in raw_cols]] *)
Fixpoint first_items (rows : list (list cell)) : outcome (list string) :=
  match rows with
  | [] => Ret []
  | [] :: _ => Raise (mkExn IndexError "tuple index out of range")
  | (c :: _) :: t => obind (first_items t) (fun l => Ret (label_of c :: l))
  end.

Definition column_names (raw_cols : qresult) : outcome (list string) :=
  match raw_cols with
  | RowSet rows => first_items rows
  | NoResultSet => Ret ["N"]
  end.

Definition result_rows (data : qresult) : list (list cell) :=
  match data with
  | RowSet rows => rows
  | NoResultSet => [[CStr "No data to return"]]
  end.

(** [pd.DataFrame(data, columns=columns)]: every row must have as many
    fields as there are labels. *)
Definition make_frame (data : qresult) (columns : list string)
  : outcome DataFrame :=
  let rows := result_rows data in
  if forallb (fun r => (List.length r =? List.length columns)%nat) rows
  then Ret (mkDF columns rows)
  else Raise (mkExn ValueError "Shape of passed values does not match columns").

Definition pure {S A} (o : outcome A) : M S A := fun s => (s, o).

(** [df.to_csv(output_path, index=False)].  A failure before the file is
    opened leaves it as it was; opening truncates it, so a failure during
    the write leaves what had been written by then. *)
Definition to_csv (df : DataFrame) : M World unit :=
  fun w =>
    match to_csv_fault env with
    | Some (e, None) => (w, Raise e)
    | Some (e, Some partial) => (set_final_csv partial w, Raise e)
    | None => (set_final_csv df w, Ret tt)
    end.

Definition no_data_in_view : exn :=
  mkExn ValueError "No data in view, please check".

Definition post_processing : M World unit :=
  data <- query_local_db SelectFinal ;;
  if (result_len data =? 0)%nat then raise no_data_in_view
  else
    raw_cols <- query_local_db SelectFinalColumns ;;
    columns <- pure (column_names raw_cols) ;;
    df <- pure (make_frame data columns) ;;
    to_csv df ;;;
    fun w =>
      logm INFO ("Final table written to csv in "
                   ++ output_folder w ++ "/final_table.csv") w.

(* ---------------------------------------------------------------- *)
(** *** [Truvi.main] *)

(** [api_parameters = self.api_filters] binds a second name to the dict
    stored in the configuration; reading through the name reads the
    section. *)
Definition api_parameters (w : World) : dict value :=
  match dict_get "api_filters" (attrs w) with
  | Some d => d
  | None => []
  end.

(** [api_parameters["page"] += 1], on the shared dict. *)
Definition incr_page : M World unit :=
  fun w =>
    match dict_get "page" (api_parameters w) with
    | None => (w, Raise (mkExn KeyError "'page'"))
    | Some (VStr _) =>
        (w, Raise (mkExn TypeError
                     ("can only concatenate str (not " ++ dquote ++ "int"
                        ++ dquote ++ ") to str")))
    | Some (VInt p) =>
        (set_attrs
           (dict_set "api_filters"
              (dict_set "page" (VInt (p + 1)) (api_parameters w)) (attrs w))
           w,
         Ret tt)
    end.

(** [page_info["page"] * page_info["per_page"] >= page_info["total"]] *)
Definition all_pages_fetched (info : page_info) : bool :=
  (total info <=? page info * per_page info)%Z.

Definition with_frame {A} (df : DataFrame) (c : M (World * DataFrame) A)
  : M World A :=
  fun w => let '(s, r) := c (w, df) in (fst s, r).

(** One turn of [while True]; [continue_] is the rest of the loop. *)
Definition loop_turn (continue_ : M World unit) : M World unit :=
  fun w =>
    ('(df, info) <- get_api_data (api_parameters w) ;;
     logm INFO ("Fetched page " ++ str_of_Z (page info) ++ " with "
                  ++ str_of_nat (df_len df) ++ " results") ;;;
     with_frame df check_write_df ;;;
     if all_pages_fetched info then logm INFO "All pages fetched"
     else incr_page ;;; continue_) w.

Fixpoint page_loop (fuel : nat) : M World unit :=
  match fuel with
  | O => fun w => (w, Diverge)
  | S n => loop_turn (page_loop n)
  end.

(** The body of [try]. *)
Definition try_body (fuel : nat) : M World unit :=
  query_local_db TruncateRaw ;;;
  page_loop fuel ;;;
  post_processing.

Definition main (fuel : nat) : M World unit :=
  _ <- getattr "api_filters" ;;
  fun w =>
    match try_body fuel w with
    | (w1, Ret _) => (log INFO "Object function stopped" w1, Ret tt)
    | (w1, Raise e) =>
        (log INFO "Object function stopped"
           (log CRITICAL ("Processing failed with " ++ exn_msg e) w1),
         Ret tt)
    | (w1, Diverge) => (w1, Diverge)
    end.

End Run.

(* ================================================================== *)
(** ** The object as [__init__] leaves it

    [__init__] assigns [self.logger], [self.engine] and
    [self.output_folder] first and turns every section into an attribute
    afterwards, so a section named after one of them takes its place, and a
    section named after a method hides the method. *)

Definition own_names : list string :=
  ["logger"; "engine"; "output_folder"; "main"; "get_api_data";
   "check_write_df"; "post_processing"].

(** The names a section must not have for the object to be the one the
    class describes: those above and the special names in double
    underscores. *)
Definition own_name (s : string) : bool :=
  existsb (String.eqb s) own_names || String.prefix "__" s.

Definition intact (c : Config) : bool :=
  forallb (fun s => negb (own_name s)) (dict_keys c).

(** [obj.main()].  With a section [main] the attribute is a dict and the
    call fails.  With a section [logger] every call on [self.logger] raises
    [AttributeError]: the first statement of [try] raises (before the
    database is reached when [self.engine] is a dict as well, else inside the
    transaction of the truncate, which is rolled back), the handler
    raises on [self.logger.critical] and the [finally] clause on
    [self.logger.info], whose exception is the one that leaves the method.
    Sections with another own name are left to [intact]. *)
Definition Truvi_main (env : Env) (fuel : nat) : M World unit :=
  fun w =>
    if dict_has "main" (attrs w) then
      (w, Raise (mkExn TypeError "'dict' object is not callable"))
    else if dict_has "logger" (attrs w) then
      match dict_get "api_filters" (attrs w) with
      | None =>
          (w, Raise (mkExn AttributeError
                       "'Truvi' object has no attribute 'api_filters'"))
      | Some _ =>
          (if dict_has "engine" (attrs w) then w else tick_db w,
           Raise (mkExn AttributeError
                    "'dict' object has no attribute 'info'"))
      end
    else main env fuel w.

(* ================================================================== *)
(** * Vocabulary of the statements *)

(** ** Configuration values *)

(** A value the guard and [int] agree on. *)
Definition clean_value (v : string) : bool :=
  implb (isdigit v) (isdecimal v && negb (too_long v)).

(** The converted value, when there is one. *)
Definition converted (v : string) : value :=
  if isdecimal v then VInt (digits_value 0 v) else VStr v.

(** The dict the inner comprehension builds when no conversion raises. *)
Definition converted_items (kvs : list (string * string)) (acc : dict value)
  : dict value :=
  fold_left (fun a kv => dict_set (fst kv) (converted (snd kv)) a) kvs acc.

Definition clean_items (kvs : list (string * string)) : bool :=
  forallb (fun kv => clean_value (snd kv)) kvs.

Definition clean_sections (parser : ConfigParser) (secs : list string) : bool :=
  forallb (fun s => clean_items (items parser s)) secs.

Definition converted_sections (parser : ConfigParser) (secs : list string)
  (acc : Config) : Config :=
  fold_left (fun a s => dict_set s (converted_items (items parser s) []) a)
            secs acc.

(** ** Configuration files used as inputs *)

(** The superscript two, U+00B2: a digit for [str.isdigit], not a literal
    for [int]. *)
Definition superscript_two : string := String (ascii_of_nat 178) EmptyString.

(** What [parser.read] raises on a file that has no section header. *)
Definition no_section_header : exn :=
  mkExn OtherError
    "MissingSectionHeaderError: File contains no section headers.".

(** A complete configuration file in which one value of the required
    section is written with a superscript digit. *)
Definition superscript_parser : ConfigParser :=
  [("Database", [("host", "localhost"); ("port", superscript_two)]);
   ("api", [("base_url", "http://x")]);
   ("api_filters", [("page", "1")]);
   ("table_values", [("created_at", "")])].

(** Two files that hold the required section and nothing else; they differ
    in one value. *)
Definition database_only_parser : ConfigParser :=
  [("Database", [("host", "localhost"); ("port", "5432")])].

Definition database_only_superscript_parser : ConfigParser :=
  [("Database", [("host", "localhost"); ("port", "5432");
                 ("password", superscript_two)])].

(** ** What a computation leaves in place *)

(** A computation is monotone for a relation on states when the state it
    leaves is related to the one it started from. *)
Definition mono {S A} (R : S -> S -> Prop) (c : M S A) : Prop :=
  forall s, R s (fst (c s)).

(** The relations used below. *)
Definition same_attrs (w w' : World) : Prop := attrs w' = attrs w.
Definition same_requests (w w' : World) : Prop := requests w' = requests w.
Definition more_requests (w w' : World) : Prop :=
  exists tail, requests w' = requests w ++ tail.

(** What one successful [api_parameters["page"] += 1] does to the
    configuration. *)
Definition next_page_config (c : Config) : Config :=
  match dict_get "api_filters" c with
  | Some d =>
      match dict_get "page" d with
      | Some (VInt p) =>
          dict_set "api_filters" (dict_set "page" (VInt (p + 1)) d) c
      | _ => c
      end
  | None => c
  end.

Definition pages_advanced (w w' : World) : Prop :=
  exists k, attrs w' = Nat.iter k next_page_config (attrs w).

(** A relation on worlds, read on the world of a call that also holds a
    frame. *)
Definition on_fst (R : World -> World -> Prop)
  (s s' : World * DataFrame) : Prop := R (fst s) (fst s').

(** Neither the configuration nor the list of requests moves. *)
Definition calm (w w' : World) : Prop :=
  attrs w' = attrs w /\ requests w' = requests w.

Definition params_of (c : Config) : dict value :=
  match dict_get "api_filters" c with
  | Some d => d
  | None => []
  end.

(** ** Log records of [main] *)

Definition stopped (w : World) : World := log INFO "Object function stopped" w.

Definition failed (e : exn) (w : World) : World :=
  log CRITICAL ("Processing failed with " ++ exn_msg e) w.

(** The log record of a fetched page. *)
Definition fetched (info : page_info) (df : DataFrame) (w : World) : World :=
  log INFO ("Fetched page " ++ str_of_Z (page info) ++ " with "
              ++ str_of_nat (df_len df) ++ " results") w.

(** What a turn does once the page is there. *)
Definition after_fetch (env : Env) (continue_ : M World unit)
  (df : DataFrame) (info : page_info) : M World unit :=
  logm INFO ("Fetched page " ++ str_of_Z (page info) ++ " with "
               ++ str_of_nat (df_len df) ++ " results") ;;;
  with_frame df (check_write_df env) ;;;
  if all_pages_fetched info then logm INFO "All pages fetched"
  else incr_page ;;; continue_.

(** ** Scenarios

    A two-page run: page 1 of 2 with [per_page = 2] and [total = 3], then
    page 2 with the last row; the view shows the staged rows as they are. *)

Definition demo_columns : list string :=
  ["id"; "guest"; "created_at"; "nights"; "price"].

Definition demo_row (i : Z) : list cell :=
  [CInt i; CStr "guest"; CStr "2024-05-01"; CInt 2; CInt 100].

Definition demo_page1 : DataFrame := mkDF demo_columns [demo_row 1; demo_row 2].
Definition demo_page2 : DataFrame := mkDF demo_columns [demo_row 3].

Definition demo_to_datetime (c : cell) : exn + cell :=
  match c with
  | CStr _ => inr (CTime 1714521600)
  | CTime t => inr (CTime t)
  | _ => inl (mkExn TypeError "not convertible to datetime")
  end.

Definition demo_env : Env :=
  mkEnv (fun n _ =>
           match n with
           | O => Envelope demo_page1 (mkPage 1 2 3)
           | _ => Envelope demo_page2 (mkPage 2 2 3)
           end)
        (fun _ => None)
        (fun raw => map (map snd) raw)
        demo_columns
        demo_to_datetime
        None.

Definition demo_config : Config :=
  [("Database", [("host", VStr "localhost"); ("port", VInt 5432)]);
   ("api", [("base_url", VStr "http://x")]);
   ("api_filters", [("page", VInt 1)]);
   ("table_values", [("created_at", VStr "")])].

Definition demo_world : World :=
  Truvi_init [] demo_config [] "/srv/truvi" None.

(** The world after the first fetch, and after the first page is written. *)
Definition demo_fetched : World :=
  fst (get_api_data demo_env (api_parameters demo_world) demo_world).

Definition demo_written : World * DataFrame :=
  fst (check_write_df demo_env
         (fetched (mkPage 1 2 3) demo_page1 demo_fetched, demo_page1)).

(** An endpoint that answers every request with an error status. *)
Definition http_503 : exn := mkExn HTTPError "503 Server Error".

Definition offline_env : Env :=
  mkEnv (fun _ _ => Failure http_503)
        (fun _ => None)
        (fun raw => map (map snd) raw)
        demo_columns
        demo_to_datetime
        None.

(** An object built from a configuration without the [api_filters]
    section. *)
Definition bare_world : World :=
  Truvi_init []
    [("Database", [("host", VStr "localhost"); ("port", VInt 5432)]);
     ("api", [("base_url", VStr "http://x")])]
    [] "/srv/truvi" None.

(** An object built from a configuration that has, next to the usual
    sections, a section named [logger]. *)
Definition logger_world : World :=
  Truvi_init []
    [("Database", [("host", VStr "localhost"); ("port", VInt 5432)]);
     ("api", [("base_url", VStr "http://x")]);
     ("api_filters", [("page", VInt 1)]);
     ("table_values", [("created_at", VStr "")]);
     ("logger", [("level", VStr "debug")])]
    [] "/srv/truvi" None.

(** Frames for the validation stage. *)
Definition four_columns : DataFrame :=
  mkDF ["id"; "guest"; "created_at"; "nights"]
       [[CInt 1; CStr "guest"; CStr "2024-05-01"; CInt 2]].

Definition six_columns : DataFrame :=
  mkDF ["id"; "guest"; "created_at"; "nights"; "price"; "extra"]
       [[CInt 1; CStr "guest"; CStr "2024-05-01"; CInt 2; CInt 100; CNull];
        [CInt 2; CStr "guest"; CStr "2024-05-02"; CInt 1; CInt 80; CNull]].

Definition no_rows : DataFrame := mkDF [] [].

(* ================================================================== *)
(** * The script entry point [main()]

    What the process around the orchestrating object does: the check of
    the command line, the load of the configuration, the connection test
    and the run.  [create_logger] is taken to have succeeded (the [logs]
    directory exists); the records go to the logger of the world. *)

(** How the process ends: [sys.exit(code)], an exception nobody catches, the
    value returned by [main()], or a run the fuel did not follow to its
    end. *)
Inductive script_end : Type :=
| Exited (code : Z)
| Uncaught (e : exn)
| Returned (v : Z)
| Unfinished.

(** What the script reads from its surroundings. *)
Record Script : Type := mkScript {
  (** [__file__] *)
  script_file : string;
  (** [os.path.dirname(os.path.abspath(__file__))] *)
  script_dir : string;
  (** [os.path.abspath(os.path.join(script_dir, '..'))] *)
  parent_dir : string;
  (** [str(sys.argv)] *)
  argv_repr : list string -> string;
  (** what the file of that name is to [ConfigParser] *)
  read_config : string -> config_file;
  (** the error, if any, of [URL.create] on the [Database] section or of
      [create_engine] *)
  engine_error : dict value -> option exn
}.

Definition starts_with_slash (s : string) : bool :=
  match s with
  | String c _ => Ascii.eqb c "/"%char
  | EmptyString => false
  end.

Fixpoint ends_with_slash (s : string) : bool :=
  match s with
  | EmptyString => false
  | String c EmptyString => Ascii.eqb c "/"%char
  | String _ t => ends_with_slash t
  end.

(** [os.path.join(a, b)] on a POSIX system. *)
Definition path_join (a b : string) : string :=
  if starts_with_slash b then b
  else if ends_with_slash a then a ++ b
  else match a with
       | EmptyString => b
       | _ => a ++ "/" ++ b
       end.

Definition set_logger (lg : Logger) (w : World) : World :=
  mkWorld lg (attrs w) (raw_data w) (db_ops w) (requests w)
          (output_folder w) (final_csv w).

(** [Truvi(logger, config_dict, engine, script_dir)] in a process that has
    already used its database handle: the sections become the attributes,
    the output folder is the parent of the script's directory. *)
Definition Truvi_new (config_dict : Config) (folder : string) (w : World)
  : World :=
  mkWorld (logger w) config_dict (raw_data w) (db_ops w) (requests w)
          folder (final_csv w).

Definition script_main (sc : Script) (env : Env) (fuel : nat)
  (argv : list string) (w : World) : World * script_end :=
  if negb (List.length argv =? 2)%nat then
    (log CRITICAL "Usage: python script_name.py config_file_name"
       (log CRITICAL
          ("Invalid number of CLI arguments: " ++ argv_repr sc argv) w),
     Exited 1)
  else
    let w1 := log DEBUG ("Starting " ++ script_file sc) w in
    let filename := path_join (script_dir sc) (nth 1 argv "") in
    match parse_config_file filename "Database" (read_config sc filename)
                            (logger w1) with
    | (lg, Raise e) => (set_logger lg w1, Uncaught e)
    | (lg, Diverge) => (set_logger lg w1, Unfinished)
    | (lg, Ret config_dict) =>
        let w2 := set_logger lg w1 in
        match dict_get "Database" config_dict with
        | None => (w2, Uncaught (mkExn KeyError "'Database'"))
        | Some section =>
            match engine_error sc section with
            | Some e => (w2, Uncaught e)
            | None =>
                match query_local_db env SelectPing w2 with
                | (w3, Raise e) => (w3, Uncaught e)
                | (w3, Diverge) => (w3, Unfinished)
                | (w3, Ret _) =>
                    let w4 := log INFO "Connection to database valid" w3 in
                    let obj := Truvi_new config_dict (parent_dir sc) w4 in
                    match Truvi_main env fuel obj with
                    | (w5, Ret _) =>
                        (log INFO "Script complete" w5, Returned 0)
                    | (w5, Raise e) => (w5, Uncaught e)
                    | (w5, Diverge) => (w5, Unfinished)
                    end
                end
            end
        end
    end.

(* ================================================================== *)
(** * Further vocabulary *)

(** The cells of the column labelled [c], row by row. *)
Definition column (c : string) (df : DataFrame) : list (option cell) :=
  map (fun r => dict_get c (combine (df_columns df) r)) (df_rows df).

(** The staged rows only grow and the csv file stays as it is. *)
Definition staging (w w' : World) : Prop :=
  final_csv w' = final_csv w
  /\ exists tail, raw_data w' = raw_data w ++ tail.

(** The [page] parameters of [k] consecutive requests starting at [p]. *)
Fixpoint pages_from (p : Z) (k : nat) : list (option value) :=
  match k with
  | O => []
  | S k' => Some (VInt p) :: pages_from (p + 1) k'
  end.

Definition page_of (r : request) : option value :=
  dict_get "page" (req_params r).

(** A script whose surroundings are as plain as can be, for the scenarios. *)
Definition demo_script (parser : ConfigParser) : Script :=
  mkScript "/srv/truvi/utils/project_classes.py" "/srv/truvi/utils"
           "/srv/truvi" (fun _ => "[...]")
           (fun _ => Readable parser (fun _ => None)) (fun _ => None).

Definition demo_parser : ConfigParser :=
  [("Database", [("drivername", "postgresql"); ("host", "localhost");
                 ("port", "5432")]);
   ("api", [("base_url", "http://x")]);
   ("api_filters", [("page", "1")]);
   ("table_values", [("created_at", "")])].

(** The world the process starts in: nothing logged, no object yet. *)
Definition boot_world : World := mkWorld [] [] [] 0 [] "" None.

(** The date conversion leaves the database and the csv file alone and
    keeps the shape of the frame. *)
Definition steady (s s' : World * DataFrame) : Prop :=
  raw_data (fst s') = raw_data (fst s)
  /\ db_ops (fst s') = db_ops (fst s)
  /\ final_csv (fst s') = final_csv (fst s)
  /\ df_columns (snd s') = df_columns (snd s)
  /\ List.length (df_rows (snd s')) = List.length (df_rows (snd s)).

(** The column labelled [c] is as it was. *)
Definition untouched (c : string) (s s' : World * DataFrame) : Prop :=
  df_columns (snd s') = df_columns (snd s)
  /\ column c (snd s') = column c (snd s).

(** ** Further scenarios *)

(** The mapping loaded from [demo_parser]. *)
Definition demo_loaded : Config :=
  converted_sections demo_parser (sections demo_parser) [].

(** A database that refuses every connection: the error SQLAlchemy raises,
    which is none of the four psycopg2 classes. *)
Definition db_down : exn :=
  mkExn OtherError "sqlalchemy.exc.OperationalError: connection refused".

(** A database without the staging table: the statement fails with a
    psycopg2 [ProgrammingError]. *)
Definition no_table : exn :=
  mkExn ProgrammingError "relation data.raw_data does not exist".

Definition no_table_env : Env :=
  mkEnv (fun _ _ => Failure http_503)
        (fun _ => Some no_table)
        (fun raw => map (map snd) raw)
        demo_columns
        demo_to_datetime
        None.

Definition db_down_env : Env :=
  mkEnv (fun n _ =>
           match n with
           | O => Envelope demo_page1 (mkPage 1 2 3)
           | _ => Envelope demo_page2 (mkPage 2 2 3)
           end)
        (fun _ => Some db_down)
        (fun raw => map (map snd) raw)
        demo_columns
        demo_to_datetime
        None.

(** An endpoint that keeps answering with an empty page of a result set
    it announces as three rows long. *)
Definition endless_env : Env :=
  mkEnv (fun _ _ => Envelope no_rows (mkPage 1 2 3))
        (fun _ => None)
        (fun raw => map (map snd) raw)
        demo_columns
        demo_to_datetime
        None.

(** The world after the two pages have been staged. *)
Definition demo_staged : World := fst (page_loop demo_env 2 demo_world).

(** The first page after the validation stage. *)
Definition demo_checked : World * DataFrame :=
  fst (check_write_df demo_env (demo_world, demo_page1)).

(* ================================================================== *)
(** * Properties *)

(** ** Dicts *)

Lemma dict_get_set_same {V} (k : string) (v : V) (d : dict V) :
  dict_get k (dict_set k v d) = Some v.
Proof.
  induction d as [|[k' v'] t IH]; simpl.
  - now rewrite String.eqb_refl.
  - destruct (String.eqb k k') eqn:E; simpl; rewrite E; auto.
Qed.

Lemma dict_get_set_other {V} (k k0 : string) (v : V) (d : dict V) :
  k0 <> k -> dict_get k0 (dict_set k v d) = dict_get k0 d.
Proof.
  intros Hne.
  induction d as [|[k' v'] t IH]; simpl.
  - destruct (String.eqb k0 k) eqn:E; auto.
    apply String.eqb_eq in E; contradiction.
  - destruct (String.eqb k k') eqn:E; simpl.
    + apply String.eqb_eq in E; subst k'.
      destruct (String.eqb k0 k) eqn:E0; auto.
      apply String.eqb_eq in E0; contradiction.
    + now rewrite IH.
Qed.

Lemma has_section_In (parser : ConfigParser) (s : string) :
  has_section parser s = true <-> In s (sections parser).
Proof.
  unfold has_section; rewrite existsb_exists; split.
  - intros (x & Hin & E); apply String.eqb_eq in E; now subst.
  - intros Hin; exists s; split; auto; apply String.eqb_refl.
Qed.

(** ** Strings *)

Lemma is_decimal_is_digit (c : ascii) :
  is_decimal_char c = true -> is_digit_char c = true.
Proof. unfold is_digit_char; intros ->; reflexivity. Qed.

Lemma all_decimal_all_digit (s : string) :
  all_chars is_decimal_char s = true -> all_chars is_digit_char s = true.
Proof.
  induction s as [|c t IH]; simpl; auto.
  rewrite !andb_true_iff; intros [Hc Ht]; split; auto using is_decimal_is_digit.
Qed.

Lemma isdecimal_isdigit (v : string) : isdecimal v = true -> isdigit v = true.
Proof.
  destruct v as [|c t]; [discriminate|].
  unfold isdecimal, isdigit; apply all_decimal_all_digit.
Qed.

(** ** [parse_config]: what one value becomes *)

Lemma convert_value_clean (v : string) :
  clean_value v = true -> convert_value v = Ret (converted v).
Proof.
  unfold clean_value, converted, convert_value, py_int.
  destruct (isdigit v) eqn:Hg; simpl.
  - intros H; apply andb_true_iff in H as [Hd Hl].
    apply negb_true_iff in Hl. now rewrite Hl, Hd.
  - intros _. destruct (isdecimal v) eqn:Hd; [|reflexivity].
    rewrite (isdecimal_isdigit _ Hd) in Hg; discriminate.
Qed.

Lemma clean_value_false (v : string) :
  clean_value v = false <->
  isdigit v = true /\ (isdecimal v = false \/ too_long v = true).
Proof.
  unfold clean_value.
  destruct (isdigit v), (isdecimal v), (too_long v); simpl;
    intuition discriminate.
Qed.

Lemma convert_value_dirty (v : string) :
  clean_value v = false -> exists e, convert_value v = Raise e.
Proof.
  intros H. apply clean_value_false in H as [Hg H].
  unfold convert_value, py_int. rewrite Hg.
  destruct (too_long v); simpl; [eauto|].
  destruct H as [H|H]; [rewrite H; simpl; eauto | discriminate].
Qed.

Lemma convert_value_never_diverges (v : string) : convert_value v <> Diverge.
Proof.
  unfold convert_value, py_int.
  destruct (isdigit v), (too_long v), (isdecimal v); discriminate.
Qed.

Lemma convert_items_clean (kvs : list (string * string)) :
  forall acc, clean_items kvs = true ->
    convert_items kvs acc = Ret (converted_items kvs acc).
Proof.
  induction kvs as [|[k v] t IH]; intros acc H; simpl in *; auto.
  apply andb_true_iff in H as [Hv Ht].
  rewrite (convert_value_clean _ Hv); simpl; auto.
Qed.

Lemma convert_items_dirty (kvs : list (string * string)) :
  forall acc, clean_items kvs = false ->
    exists e, convert_items kvs acc = Raise e.
Proof.
  induction kvs as [|[k v] t IH]; intros acc H; simpl in *; [discriminate|].
  destruct (clean_value v) eqn:Hv; simpl in H.
  - rewrite (convert_value_clean _ Hv); simpl; auto.
  - destruct (convert_value_dirty _ Hv) as [e ->]; simpl; eauto.
Qed.

Lemma convert_sections_clean (parser : ConfigParser) (secs : list string) :
  forall acc, clean_sections parser secs = true ->
    convert_sections parser secs acc = Ret (converted_sections parser secs acc).
Proof.
  induction secs as [|s t IH]; intros acc H; simpl in *; auto.
  apply andb_true_iff in H as [Hs Ht].
  rewrite (convert_items_clean _ _ Hs); simpl; auto.
Qed.

Lemma convert_sections_dirty (parser : ConfigParser) (secs : list string) :
  forall acc, clean_sections parser secs = false ->
    exists e, convert_sections parser secs acc = Raise e.
Proof.
  induction secs as [|s t IH]; intros acc H; simpl in *; [discriminate|].
  destruct (clean_items (items parser s)) eqn:Hs; simpl in H.
  - rewrite (convert_items_clean _ _ Hs); simpl; auto.
  - destruct (convert_items_dirty _ [] Hs) as [e ->]; simpl; eauto.
Qed.

Lemma clean_sections_false (parser : ConfigParser) (secs : list string) :
  clean_sections parser secs = false <->
  exists s k v, In s secs /\ In (k, v) (items parser s)
                /\ clean_value v = false.
Proof.
  unfold clean_sections, clean_items; split.
  - intros H.
    destruct (forallb _ secs) eqn:E in H; [discriminate|]; clear H.
    apply not_true_iff_false in E.
    rewrite forallb_forall in E.
    induction secs as [|s t IH].
    + exfalso; apply E; intros ? [].
    + destruct (forallb (fun kv => clean_value (snd kv)) (items parser s)) eqn:Hs.
      * destruct IH as (s' & k & v & Hin & R).
        { intros Hall; apply E; intros x [<-|Hx]; auto. }
        exists s', k, v; split; [now right | exact R].
      * clear IH E.
        assert (exists kv, In kv (items parser s) /\ clean_value (snd kv) = false)
          as ([k v] & Hin & Hc).
        { induction (items parser s) as [|kv l IHl]; [discriminate|].
          simpl in Hs. destruct (clean_value (snd kv)) eqn:Hkv; simpl in Hs.
          - destruct (IHl Hs) as (x & Hx & Hc); exists x; split; [now right|auto].
          - exists kv; split; [now left | auto]. }
        exists s, k, v; split; [now left|]; split; auto.
  - intros (s & k & v & Hs & Hkv & Hd).
    apply not_true_iff_false; intros Hall.
    rewrite forallb_forall in Hall. specialize (Hall s Hs).
    rewrite forallb_forall in Hall. specialize (Hall (k, v) Hkv).
    simpl in Hall. rewrite Hd in Hall; discriminate.
Qed.

Lemma converted_items_get_other (kvs : list (string * string)) (k : string) :
  forall acc, ~ In k (map fst kvs) ->
    dict_get k (converted_items kvs acc) = dict_get k acc.
Proof.
  unfold converted_items.
  induction kvs as [|[k' v'] t IH]; intros acc Hk; simpl in *; auto.
  rewrite IH by tauto.
  apply dict_get_set_other; intros ->; tauto.
Qed.

Lemma converted_items_get (kvs : list (string * string)) (k v : string) :
  forall acc, NoDup (map fst kvs) -> In (k, v) kvs ->
    dict_get k (converted_items kvs acc) = Some (converted v).
Proof.
  induction kvs as [|[k' v'] t IH]; intros acc Hnd Hin; simpl in *; [tauto|].
  inversion Hnd as [|? ? Hnotin Hnd']; subst.
  destruct Hin as [E|Hin].
  - inversion E; subst k' v'.
    change (dict_get k (converted_items t (dict_set k (converted v) acc))
            = Some (converted v)).
    rewrite converted_items_get_other by assumption.
    apply dict_get_set_same.
  - apply (IH _ Hnd' Hin).
Qed.

Lemma converted_sections_get (parser : ConfigParser) (secs : list string)
  (s : string) :
  forall acc,
    dict_get s (converted_sections parser secs acc) =
      if existsb (String.eqb s) secs
      then Some (converted_items (items parser s) [])
      else dict_get s acc.
Proof.
  unfold converted_sections.
  induction secs as [|s0 t IH]; intros acc; simpl; auto.
  rewrite IH.
  destruct (String.eqb s s0) eqn:E; simpl.
  - apply String.eqb_eq in E; subst s0.
    rewrite dict_get_set_same. now destruct (existsb _ t).
  - rewrite dict_get_set_other; auto.
    intros ->; rewrite String.eqb_refl in E; discriminate.
Qed.

(** With the required section present and every value clean, [parse_config]
    returns, logs nothing, and the mapping holds an integer for each decimal
    string and the string itself for every other value. *)
Lemma parse_config_clean (filename required : string) (parser : ConfigParser)
  (logger : Logger) :
  has_section parser required = true ->
  clean_sections parser (sections parser) = true ->
  exists cfg,
    parse_config filename required parser logger = (logger, Ret cfg)
    /\ forall s, In s (sections parser) ->
         exists d, dict_get s cfg = Some d
           /\ forall k v, NoDup (map fst (items parser s)) ->
                In (k, v) (items parser s) ->
                dict_get k d = Some (converted v).
Proof.
  intros Hreq Hclean.
  exists (converted_sections parser (sections parser) []); split.
  - unfold parse_config; rewrite Hreq; simpl.
    now rewrite convert_sections_clean.
  - intros s Hs. exists (converted_items (items parser s) []); split.
    + rewrite converted_sections_get.
      apply has_section_In in Hs; unfold has_section in Hs; now rewrite Hs.
    + intros k v Hnd Hin; now apply converted_items_get.
Qed.

(** On a parser that has read the file: when the required section is
    missing, [parse_config] emits one record at critical severity and then
    fails with a [ValueError] that carries the same message. *)
Theorem parse_config_missing_section (filename required : string)
  (parser : ConfigParser) (logger : Logger) :
  has_section parser required = false ->
  parse_config filename required parser logger =
    (emit CRITICAL (missing_section_msg required filename) logger,
     Raise (mkExn ValueError (missing_section_msg required filename))).
Proof.
  intros H; unfold parse_config; now rewrite H.
Qed.

Lemma parse_config_missing_section_witness :
  has_section [("api", [("base_url", "http://x")])] "Database" = false
  /\ parse_config "config.ini" "Database"
       [("api", [("base_url", "http://x")])] [] =
     ([(CRITICAL,
        "Required section 'Database' not found in the config.ini file")],
      Raise (mkExn ValueError
        "Required section 'Database' not found in the config.ini file")).
Proof.
  split; [reflexivity|].
  apply (parse_config_missing_section "config.ini" "Database"
           [("api", [("base_url", "http://x")])] []).
  reflexivity.
Defined.

(** C6: on a configuration that has the [Database] section and a value
    written with the digit U+00B2, the guard [v.isdigit()] holds, [int(v)]
    raises, and [parse_config] ends with that [ValueError] instead of
    returning a mapping. *)
Theorem parse_config_superscript_digit :
  has_section superscript_parser "Database" = true
  /\ isdigit superscript_two = true
  /\ parse_config "config.ini" "Database" superscript_parser [] =
       ([], Raise (mkExn ValueError
                     ("invalid literal for int() with base 10: '"
                        ++ superscript_two ++ "'"))).
Proof. repeat split; reflexivity. Qed.

(** On a parser that holds a file read and interpolated without error,
    [parse_config] raises exactly when the required section is absent or
    some value passes [isdigit] and is refused by [int]. *)
Lemma parse_config_raises_iff (filename required : string)
  (parser : ConfigParser) (logger : Logger) :
  (exists e, snd (parse_config filename required parser logger) = Raise e)
  <->
  (has_section parser required = false
   \/ exists s k v, In s (sections parser) /\ In (k, v) (items parser s)
                    /\ clean_value v = false).
Proof.
  unfold parse_config.
  destruct (has_section parser required) eqn:Hreq; simpl.
  - rewrite <- clean_sections_false.
    destruct (clean_sections parser (sections parser)) eqn:Hc.
    + rewrite convert_sections_clean by assumption.
      split; [intros [e He]; discriminate | intros [H|H]; discriminate].
    + split; [now right | intros _].
      apply convert_sections_dirty; assumption.
  - split; [now left | intros _; eauto].
Qed.

(** C9: a file that holds the [Database] section and none of [api],
    [api_filters], [table_values] is returned without complaint; yet with
    the required section present [parse_config] still raises when a value
    is written with the digit U+00B2. *)
Theorem parse_config_raises_with_required_section :
  (parse_config "config.ini" "Database" database_only_parser []
   = ([], Ret [("Database", [("host", VStr "localhost"); ("port", VInt 5432)])]))
  /\ has_section database_only_superscript_parser "Database" = true
  /\ parse_config "config.ini" "Database" database_only_superscript_parser []
     = ([], Raise (mkExn ValueError
                     ("invalid literal for int() with base 10: '"
                        ++ superscript_two ++ "'"))).
Proof. repeat split; reflexivity. Qed.

(** ** [check_write_df] *)

(** C5: on an empty frame the stage only logs "Empty DataFrame" at info
    severity and returns; no database operation is made, the staging table
    and the frame are as before. *)
Theorem check_write_df_empty (env : Env) (w : World) (df : DataFrame) :
  df_empty df = true ->
  check_write_df env (w, df) = ((log INFO "Empty DataFrame" w, df), Ret tt)
  /\ raw_data (fst (fst (check_write_df env (w, df)))) = raw_data w
  /\ db_ops (fst (fst (check_write_df env (w, df)))) = db_ops w.
Proof.
  intros H.
  assert (E : check_write_df env (w, df)
              = ((log INFO "Empty DataFrame" w, df), Ret tt)).
  { unfold check_write_df; simpl; rewrite H; reflexivity. }
  rewrite E; auto.
Qed.

(** C4: a frame that is not empty and does not have exactly five columns
    makes the stage fail with an [IndexError], whatever its number of rows,
    and the staging table receives nothing. *)
Theorem check_write_df_wrong_columns (env : Env) (w : World) (df : DataFrame) :
  df_empty df = false ->
  List.length (df_columns df) <> 5 ->
  snd (check_write_df env (w, df))
    = Raise (wrong_columns (List.length (df_columns df)))
  /\ exn_cls (wrong_columns (List.length (df_columns df))) = IndexError
  /\ raw_data (fst (fst (check_write_df env (w, df)))) = raw_data w.
Proof.
  intros Hne Hcols.
  unfold check_write_df; simpl; rewrite Hne.
  apply Nat.eqb_neq in Hcols; rewrite Hcols; simpl; auto.
Qed.

(** C10: on the wrong-column-count path nothing has happened yet: the frame
    is the one passed in (no column converted), and the world is untouched
    (no row written, no database operation, no log record). *)
Theorem check_write_df_wrong_columns_frame (env : Env) (w : World)
  (df : DataFrame) :
  df_empty df = false ->
  List.length (df_columns df) <> 5 ->
  check_write_df env (w, df)
    = ((w, df), Raise (wrong_columns (List.length (df_columns df)))).
Proof.
  intros Hne Hcols.
  unfold check_write_df; simpl; rewrite Hne.
  apply Nat.eqb_neq in Hcols; rewrite Hcols; reflexivity.
Qed.

(** ** Frame reasoning

    Sequencing keeps monotonicity for a preorder on states. *)

Section Mono.
Context {S : Type} (R : S -> S -> Prop).
Hypothesis R_refl : forall s, R s s.
Hypothesis R_trans : forall a b c, R a b -> R b c -> R a c.

Lemma mono_ret {A} (a : A) : mono R (ret a).
Proof. intros s; apply R_refl. Qed.

Lemma mono_raise {A} (e : exn) : mono R (@raise S A e).
Proof. intros s; apply R_refl. Qed.

Lemma mono_pure {A} (o : outcome A) : mono R (pure o).
Proof. intros s; apply R_refl. Qed.

Lemma mono_bind {A B} (c : M S A) (k : A -> M S B) :
  mono R c -> (forall a, mono R (k a)) -> mono R (bind c k).
Proof.
  intros Hc Hk s; unfold bind.
  specialize (Hc s).
  destruct (c s) as [s1 [a|e|]]; simpl in *; auto.
  eapply R_trans; [exact Hc | apply Hk].
Qed.

Lemma mono_if {A} (b : bool) (c1 c2 : M S A) :
  mono R c1 -> mono R c2 -> mono R (if b then c1 else c2).
Proof. now destruct b. Qed.
End Mono.

Lemma same_attrs_refl w : same_attrs w w.
Proof. reflexivity. Qed.
Lemma same_attrs_trans a b c : same_attrs a b -> same_attrs b c -> same_attrs a c.
Proof. unfold same_attrs; congruence. Qed.

Lemma same_requests_refl w : same_requests w w.
Proof. reflexivity. Qed.
Lemma same_requests_trans a b c :
  same_requests a b -> same_requests b c -> same_requests a c.
Proof. unfold same_requests; congruence. Qed.

Lemma more_requests_refl w : more_requests w w.
Proof. exists []; now rewrite app_nil_r. Qed.
Lemma more_requests_trans a b c :
  more_requests a b -> more_requests b c -> more_requests a c.
Proof.
  intros [t1 H1] [t2 H2]; exists (t1 ++ t2).
  now rewrite H2, H1, app_assoc.
Qed.

Lemma pages_advanced_refl w : pages_advanced w w.
Proof. now exists 0. Qed.
Lemma pages_advanced_trans a b c :
  pages_advanced a b -> pages_advanced b c -> pages_advanced a c.
Proof.
  intros [k1 H1] [k2 H2]; exists (k2 + k1).
  now rewrite Nat.iter_add, <- H1.
Qed.

Lemma same_attrs_advanced w w' : same_attrs w w' -> pages_advanced w w'.
Proof. intros H; now exists 0. Qed.

Lemma on_fst_refl R : (forall w, R w w) -> forall s, on_fst R s s.
Proof. intros H s; apply H. Qed.
Lemma on_fst_trans R :
  (forall a b c, R a b -> R b c -> R a c) ->
  forall a b c, on_fst R a b -> on_fst R b c -> on_fst R a c.
Proof. unfold on_fst; eauto. Qed.

Create HintDb frame.

#[local] Hint Resolve same_attrs_refl same_attrs_trans same_requests_refl
  same_requests_trans more_requests_refl more_requests_trans
  pages_advanced_refl pages_advanced_trans on_fst_refl on_fst_trans : frame.

Lemma mono_on_world R {A} (c : M World A) :
  mono R c -> mono (on_fst R) (on_world c).
Proof.
  intros H s; unfold on_world, on_fst.
  specialize (H (fst s)); destruct (c (fst s)); exact H.
Qed.

Lemma mono_with_frame R {A} (df : DataFrame) (c : M (World * DataFrame) A) :
  mono (on_fst R) c -> mono R (with_frame df c).
Proof.
  intros H w; unfold with_frame.
  specialize (H (w, df)); unfold on_fst in H.
  destruct (c (w, df)); exact H.
Qed.

Lemma mono_weaken {S A} (R R' : S -> S -> Prop) (c : M S A) :
  (forall a b, R a b -> R' a b) -> mono R c -> mono R' c.
Proof. intros H Hc s; apply H, Hc. Qed.

Lemma calm_refl w : calm w w.
Proof. split; reflexivity. Qed.
Lemma calm_trans a b c : calm a b -> calm b c -> calm a c.
Proof. unfold calm; intros [] []; split; congruence. Qed.

#[local] Hint Resolve calm_refl calm_trans : frame.

Lemma calm_same_attrs a b : calm a b -> same_attrs a b.
Proof. now intros []. Qed.
Lemma calm_same_requests a b : calm a b -> same_requests a b.
Proof. now intros []. Qed.
Lemma same_requests_more a b : same_requests a b -> more_requests a b.
Proof. intros H; exists []; now rewrite app_nil_r. Qed.

Section RunFrames.
Variable env : Env.

Lemma calm_logm l msg : mono calm (logm l msg).
Proof. intros w; split; reflexivity. Qed.

Lemma calm_getattr name : mono calm (getattr name).
Proof.
  intros w; unfold getattr.
  destruct (dict_get name (attrs w)); split; reflexivity.
Qed.

Lemma calm_query q : mono calm (query_local_db env q).
Proof.
  intros w; unfold query_local_db.
  destruct (db_fault env (db_ops w)) as [e|].
  - destruct (expected_db_error e); split; reflexivity.
  - destruct q; split; reflexivity.
Qed.

Lemma calm_to_sql df : mono calm (to_sql env df).
Proof.
  intros w; unfold to_sql.
  destruct (db_fault env (db_ops w)); split; reflexivity.
Qed.

Lemma calm_to_csv df : mono calm (to_csv env df).
Proof.
  intros w; unfold to_csv.
  destruct (to_csv_fault env) as [[e [partial|]]|]; split; reflexivity.
Qed.

Lemma calm_convert_column key : mono (on_fst calm) (convert_column env key).
Proof.
  intros s; unfold convert_column, on_fst.
  destruct (convert_rows env key _ _); simpl; apply calm_refl.
Qed.

Lemma calm_convert_dates keys : mono (on_fst calm) (convert_dates env keys).
Proof.
  induction keys as [|key rest IH]; simpl.
  - apply mono_ret; eauto with frame.
  - assert (Hyes : mono (on_fst calm)
                      (convert_column env key ;;;
                       on_world (logm DEBUG ("Converted " ++ key ++ " to datetime")) ;;;
                       convert_dates env rest)).
    { apply mono_bind; eauto with frame.
      - apply calm_convert_column.
      - intros _. apply mono_bind; eauto with frame.
        apply mono_on_world, calm_logm. }
    intros s.
    destruct (existsb (String.eqb key) (df_columns (snd s))); [apply Hyes|apply IH].
Qed.

Lemma calm_check_write_df : mono (on_fst calm) (check_write_df env).
Proof.
  assert (Hwrite : mono (on_fst calm)
            (table_values <- on_world (getattr "table_values") ;;
             convert_dates env (dict_keys table_values) ;;;
             (fun s1 => on_world (to_sql env (snd s1)) s1) ;;;
             on_world (logm DEBUG "Dataframe written to database"))).
  { apply mono_bind; eauto with frame.
    - apply mono_on_world, calm_getattr.
    - intros tv. apply mono_bind; eauto with frame.
      { apply calm_convert_dates. }
      intros _. apply mono_bind; eauto with frame.
      { intros s1. apply (mono_on_world (calm_to_sql (snd s1))). }
      intros _. apply mono_on_world, calm_logm. }
  intros s; unfold check_write_df.
  destruct (df_empty (snd s)).
  - apply (mono_on_world (calm_logm INFO "Empty DataFrame")).
  - destruct (negb _).
    + apply (mono_raise (on_fst calm)); eauto with frame.
    + apply Hwrite.
Qed.

Lemma calm_post_processing : mono calm (post_processing env).
Proof.
  unfold post_processing.
  apply mono_bind; eauto with frame; [apply calm_query|].
  intros data. destruct (result_len data =? 0)%nat.
  - apply mono_raise; eauto with frame.
  - apply mono_bind; eauto with frame; [apply calm_query|].
    intros raw_cols. apply mono_bind; eauto with frame.
    { apply mono_pure; eauto with frame. }
    intros columns. apply mono_bind; eauto with frame.
    { apply mono_pure; eauto with frame. }
    intros df. apply mono_bind; eauto with frame; [apply calm_to_csv|].
    intros _ w; apply calm_logm.
Qed.

(** [get_api_data] issues at most one request and leaves the configuration
    alone. *)
Lemma get_api_data_cases (params : dict value) (w : World) :
  (exists e, get_api_data env params w = (w, Raise e))
  \/ (exists u r, r <> Diverge
        /\ get_api_data env params w
           = (record_request (mkReq u params) w, r)).
Proof.
  unfold get_api_data, bind, getattr.
  destruct (dict_get "api" (attrs w)) as [api|]; [|left; eauto].
  destruct (dict_get "base_url" api) as [base|]; [|left; unfold raise; eauto].
  destruct (urljoin base "api/bookings") as [u|e|] eqn:Hu.
  - right. exists u.
    destruct (api_server env _ _) as [e|results info];
      eexists; split; [| reflexivity | | reflexivity]; discriminate.
  - left; unfold raise; eauto.
  - destruct base as [z|b]; simpl in Hu; [destruct z|]; discriminate.
Qed.

Lemma same_attrs_get_api_data params : mono same_attrs (get_api_data env params).
Proof.
  intros w.
  destruct (get_api_data_cases params w) as [[e ->]|(u & r & _ & ->)];
    reflexivity.
Qed.

Lemma more_requests_get_api_data params :
  mono more_requests (get_api_data env params).
Proof.
  intros w.
  destruct (get_api_data_cases params w) as [[e ->]|(u & r & _ & ->)]; simpl.
  - apply more_requests_refl.
  - now exists [mkReq u params].
Qed.

(** [api_parameters["page"] += 1] *)
Lemma incr_page_cases (w : World) :
  (exists e, incr_page w = (w, Raise e)
             /\ forall p, dict_get "page" (api_parameters w) <> Some (VInt p))
  \/ (exists p, dict_get "page" (api_parameters w) = Some (VInt p)
        /\ incr_page w
           = (set_attrs
                (dict_set "api_filters"
                   (dict_set "page" (VInt (p + 1)) (api_parameters w))
                   (attrs w)) w, Ret tt)).
Proof.
  unfold incr_page.
  destruct (dict_get "page" (api_parameters w)) as [[p|s]|].
  - right; eauto.
  - left; eexists; split; [reflexivity | discriminate].
  - left; eexists; split; [reflexivity | discriminate].
Qed.

Lemma pages_advanced_incr_page : mono pages_advanced incr_page.
Proof.
  intros w.
  destruct (incr_page_cases w) as [(e & -> & _)|(p & Hp & ->)]; simpl.
  - apply pages_advanced_refl.
  - unfold api_parameters in *.
    destruct (dict_get "api_filters" (attrs w)) as [d|] eqn:Hd;
      [|discriminate].
    exists 1; simpl. unfold next_page_config. now rewrite Hd, Hp.
Qed.

Lemma same_requests_incr_page : mono same_requests incr_page.
Proof.
  intros w.
  destruct (incr_page_cases w) as [(e & -> & _)|(p & Hp & ->)]; reflexivity.
Qed.

End RunFrames.

Section LoopFrames.
Variable env : Env.
Variable R : World -> World -> Prop.
Hypothesis R_refl : forall w, R w w.
Hypothesis R_trans : forall a b c, R a b -> R b c -> R a c.
Hypothesis R_calm : forall a b, calm a b -> R a b.
Hypothesis R_fetch : forall params, mono R (get_api_data env params).
Hypothesis R_incr : mono R incr_page.

Lemma mono_calm_R {A} (c : M World A) : mono calm c -> mono R c.
Proof. apply mono_weaken, R_calm. Qed.

Lemma mono_check_write_df_R df : mono R (with_frame df (check_write_df env)).
Proof.
  apply mono_with_frame.
  apply (mono_weaken (R := on_fst calm)); [|apply calm_check_write_df].
  intros a b; apply R_calm.
Qed.

Lemma mono_loop_turn (k : M World unit) : mono R k -> mono R (loop_turn env k).
Proof.
  intros Hk w; unfold loop_turn.
  apply mono_bind; auto.
  intros [df info].
  apply mono_bind; auto; [apply mono_calm_R, calm_logm|].
  intros _. apply mono_bind; auto; [apply mono_check_write_df_R|].
  intros _. apply mono_if; [apply mono_calm_R, calm_logm|].
  apply mono_bind; auto.
Qed.

Lemma mono_page_loop (fuel : nat) : mono R (page_loop env fuel).
Proof.
  induction fuel as [|n IH]; simpl.
  - intros w; apply R_refl.
  - now apply mono_loop_turn.
Qed.

Lemma mono_try_body (fuel : nat) : mono R (try_body env fuel).
Proof.
  unfold try_body.
  apply mono_bind; auto; [apply mono_calm_R, calm_query|].
  intros _. apply mono_bind; auto; [apply mono_page_loop|].
  intros _. apply mono_calm_R, calm_post_processing.
Qed.

Lemma mono_main (fuel : nat) : mono R (main env fuel).
Proof.
  unfold main.
  apply mono_bind; auto; [apply mono_calm_R, calm_getattr|].
  intros _ w.
  pose proof (mono_try_body fuel w) as H.
  destruct (try_body env fuel w) as [w1 [u|e|]]; simpl in *; auto.
  - eapply R_trans; [exact H|]. apply R_calm; split; reflexivity.
  - eapply R_trans; [exact H|]. apply R_calm; split; reflexivity.
Qed.
End LoopFrames.

(** ** The configuration during a run *)

Lemma next_page_config_other (c : Config) (sec : string) :
  sec <> "api_filters" ->
  dict_get sec (next_page_config c) = dict_get sec c.
Proof.
  intros Hne; unfold next_page_config.
  destruct (dict_get "api_filters" c) as [d|]; auto.
  destruct (dict_get "page" d) as [[p|s]|]; auto.
  now apply dict_get_set_other.
Qed.

Lemma next_page_config_params (c : Config) (key : string) :
  key <> "page" ->
  dict_get key (params_of (next_page_config c)) = dict_get key (params_of c).
Proof.
  intros Hne; unfold next_page_config, params_of.
  destruct (dict_get "api_filters" c) as [d|] eqn:Hd; [|now rewrite Hd].
  destruct (dict_get "page" d) as [[p|s]|]; try now rewrite Hd.
  rewrite dict_get_set_same. now apply dict_get_set_other.
Qed.

Lemma iter_next_page_config_other (k : nat) (c : Config) (sec : string) :
  sec <> "api_filters" ->
  dict_get sec (Nat.iter k next_page_config c) = dict_get sec c.
Proof.
  intros Hne; induction k as [|k IH]; simpl; auto.
  now rewrite next_page_config_other.
Qed.

Lemma iter_next_page_config_params (k : nat) (c : Config) (key : string) :
  key <> "page" ->
  dict_get key (params_of (Nat.iter k next_page_config c))
  = dict_get key (params_of c).
Proof.
  intros Hne; induction k as [|k IH]; simpl; auto.
  now rewrite next_page_config_params.
Qed.


(** ** [post_processing] *)

(** C8: when [data.final_table] is empty, [post_processing] fails and the
    csv file is not written; the failure is the [ValueError] "No data in
    view, please check" as soon as the [SELECT] itself goes through. *)
Theorem post_processing_empty_view (env : Env) (w : World) :
  final_table env (raw_data w) = [] ->
  (exists e, snd (post_processing env w) = Raise e)
  /\ final_csv (fst (post_processing env w)) = final_csv w
  /\ (db_fault env (db_ops w) = None ->
      snd (post_processing env w) = Raise no_data_in_view).
Proof.
  intros Hempty.
  unfold post_processing, bind, query_local_db.
  destruct (db_fault env (db_ops w)) as [e|] eqn:Hf.
  - destruct (expected_db_error e); simpl;
      (split; [eauto | split; [reflexivity | discriminate]]).
  - simpl. rewrite Hempty; simpl.
    split; [eauto | split; reflexivity].
Qed.

(** ** [Truvi.main]: the failure boundary *)

(** An exception raised by the reset, by the page loop or by the
    post-processing ends the body of [try] on the spot. *)
Lemma try_body_raise (env : Env) (fuel : nat) (w w1 : World) (e : exn) :
  try_body env fuel w = (w1, Raise e) <->
  (query_local_db env TruncateRaw w = (w1, Raise e)
   \/ (exists w0 r, query_local_db env TruncateRaw w = (w0, Ret r)
         /\ page_loop env fuel w0 = (w1, Raise e))
   \/ (exists w0 r w2 u, query_local_db env TruncateRaw w = (w0, Ret r)
         /\ page_loop env fuel w0 = (w2, Ret u)
         /\ post_processing env w2 = (w1, Raise e))).
Proof.
  unfold try_body, bind; split.
  - intros H.
    destruct (query_local_db env TruncateRaw w) as [w0 [r|e0|]] eqn:Hq;
      [|left; inversion H; reflexivity|discriminate].
    destruct (page_loop env fuel w0) as [w2 [u|e2|]] eqn:Hl;
      [|right; left; exists w0, r; split; [reflexivity|inversion H; subst; exact Hl]
       |discriminate].
    right; right; exists w0, r, w2, u; auto.
  - intros [H|[(w0 & r & H1 & H2)|(w0 & r & w2 & u & H1 & H2 & H3)]].
    + now rewrite H.
    + now rewrite H1, H2.
    + now rewrite H1, H2.
Qed.

Lemma main_with_api_filters (env : Env) (fuel : nat) (w : World) :
  dict_has "api_filters" (attrs w) = true ->
  main env fuel w =
    match try_body env fuel w with
    | (w1, Ret _) => (stopped w1, Ret tt)
    | (w1, Raise e) => (stopped (failed e w1), Ret tt)
    | (w1, Diverge) => (w1, Diverge)
    end.
Proof.
  unfold dict_has, main, bind, getattr.
  destruct (dict_get "api_filters" (attrs w)); [reflexivity|discriminate].
Qed.

Lemma dict_has_in_keys {V} (s : string) (c : dict V) :
  dict_has s c = true -> In s (dict_keys c).
Proof.
  unfold dict_has, dict_keys.
  induction c as [|[k v] t IH]; simpl; [discriminate|].
  destruct (String.eqb s k) eqn:E.
  - apply String.eqb_eq in E. auto.
  - auto.
Qed.

Lemma intact_free (c : Config) (s : string) :
  intact c = true -> own_name s = true -> dict_has s c = false.
Proof.
  unfold intact. intros Hi Ho.
  destruct (dict_has s c) eqn:Hh; [|reflexivity].
  apply dict_has_in_keys in Hh.
  rewrite forallb_forall in Hi. specialize (Hi s Hh).
  rewrite Ho in Hi. discriminate.
Qed.

Lemma Truvi_main_intact (env : Env) (fuel : nat) (w : World) :
  intact (attrs w) = true -> Truvi_main env fuel w = main env fuel w.
Proof.
  intros Hi. unfold Truvi_main.
  rewrite (@intact_free (attrs w) "main" Hi eq_refl).
  now rewrite (@intact_free (attrs w) "logger" Hi eq_refl).
Qed.


(** ** The page loop *)

Lemma loop_turn_unfold (env : Env) (k : M World unit) (w : World) :
  loop_turn env k w =
    match get_api_data env (api_parameters w) w with
    | (w1, Ret (df, info)) => after_fetch env k df info w1
    | (w1, Raise e) => (w1, Raise e)
    | (w1, Diverge) => (w1, Diverge)
    end.
Proof.
  unfold loop_turn, bind at 1.
  destruct (get_api_data env (api_parameters w) w) as [w1 [[df info]|e|]];
    reflexivity.
Qed.

Lemma more_requests_after_fetch (env : Env) (k : M World unit) df info :
  mono more_requests k -> mono more_requests (after_fetch env k df info).
Proof.
  intros Hk; unfold after_fetch.
  assert (Hc : forall A (c : M World A), mono calm c -> mono more_requests c).
  { intros A c. apply mono_weaken.
    intros a b Hab. apply same_requests_more, calm_same_requests, Hab. }
  apply mono_bind; eauto with frame; [apply Hc, calm_logm|].
  intros _. apply mono_bind; eauto with frame.
  { apply mono_with_frame.
    apply (mono_weaken (R := on_fst calm)); [|apply calm_check_write_df].
    intros a b Hab. apply same_requests_more, calm_same_requests, Hab. }
  intros _. apply mono_if; [apply Hc, calm_logm|].
  apply mono_bind; eauto with frame.
  apply (mono_weaken (R := same_requests)); [apply same_requests_more|].
  apply same_requests_incr_page.
Qed.

Lemma more_requests_page_loop (env : Env) (fuel : nat) :
  mono more_requests (page_loop env fuel).
Proof.
  apply mono_page_loop; eauto with frame.
  - intros a b Hab. apply same_requests_more, calm_same_requests, Hab.
  - apply more_requests_get_api_data.
  - apply (mono_weaken (R := same_requests)); [apply same_requests_more|].
    apply same_requests_incr_page.
Qed.

Lemma get_api_data_ret_inv (env : Env) params (w w1 : World) x :
  get_api_data env params w = (w1, Ret x) ->
  exists api base u,
    dict_get "api" (attrs w) = Some api
    /\ dict_get "base_url" api = Some base
    /\ urljoin base "api/bookings" = Ret u
    /\ w1 = record_request (mkReq u params) w.
Proof.
  unfold get_api_data, bind, getattr.
  destruct (dict_get "api" (attrs w)) as [api|]; [|discriminate].
  destruct (dict_get "base_url" api) as [base|] eqn:Hb; [|discriminate].
  destruct (urljoin base "api/bookings") as [u|e|] eqn:Hu; try discriminate.
  destruct (api_server env _ _); intros H; inversion H; subst.
  exists api, base, u; repeat split; auto.
Qed.

Lemma get_api_data_sends (env : Env) params (w : World) api base u :
  dict_get "api" (attrs w) = Some api ->
  dict_get "base_url" api = Some base ->
  urljoin base "api/bookings" = Ret u ->
  exists r, get_api_data env params w
            = (record_request (mkReq u params) w, r).
Proof.
  intros Ha Hb Hu; unfold get_api_data, bind, getattr.
  rewrite Ha, Hb, Hu.
  destruct (api_server env _ _); eauto.
Qed.

(** Once the [api] section lets one request out, every turn of the loop
    starts by sending the parameters as they are at that moment. *)
Lemma page_loop_sends (env : Env) (n : nat) (w : World) api base u :
  dict_get "api" (attrs w) = Some api ->
  dict_get "base_url" api = Some base ->
  urljoin base "api/bookings" = Ret u ->
  exists tail,
    requests (fst (page_loop env (S n) w))
    = requests w ++ mkReq u (api_parameters w) :: tail.
Proof.
  intros Ha Hb Hu; simpl. rewrite loop_turn_unfold.
  destruct (get_api_data_sends env (api_parameters w) w Ha Hb Hu) as [r ->].
  destruct r as [[df info]|e|].
  - destruct (more_requests_after_fetch env df info
                (more_requests_page_loop env n)
                (record_request (mkReq u (api_parameters w)) w)) as [tail Ht].
    exists tail. rewrite Ht; simpl. now rewrite <- app_assoc.
  - exists []; reflexivity.
  - exists []; reflexivity.
Qed.

(** Fuel only decides whether [while True] is followed to its end: a run
    that ends with some fuel ends the same way with any larger fuel. *)
Lemma loop_turn_fuel (env : Env) (k k' : M World unit) :
  (forall w w' r, k w = (w', r) -> r <> Diverge -> k' w = (w', r)) ->
  forall w w' r,
    loop_turn env k w = (w', r) -> r <> Diverge ->
    loop_turn env k' w = (w', r).
Proof.
  intros Hk w w' r. rewrite !loop_turn_unfold.
  destruct (get_api_data env (api_parameters w) w) as [w1 [[df info]|e|]];
    auto.
  unfold after_fetch, bind, logm.
  destruct (with_frame df (check_write_df env) _) as [w2 [u|e|]]; auto.
  destruct (all_pages_fetched info); auto.
  destruct (incr_page w2) as [w3 [u'|e|]]; auto.
Qed.

Lemma page_loop_fuel (env : Env) (n : nat) :
  forall m w w' r,
    n <= m -> page_loop env n w = (w', r) -> r <> Diverge ->
    page_loop env m w = (w', r).
Proof.
  induction n as [|n IH]; intros m w w' r Hle H Hr.
  - simpl in H. inversion H; subst; contradiction.
  - destruct m as [|m]; [lia|]. simpl in *.
    apply (loop_turn_fuel env (page_loop env n)); auto.
    intros w0 w0' r0 H0 Hr0. apply IH; auto; lia.
Qed.

Lemma main_fuel (env : Env) (n m : nat) (w w' : World) (r : outcome unit) :
  n <= m -> main env n w = (w', r) -> r <> Diverge ->
  main env m w = (w', r).
Proof.
  intros Hle. unfold main, bind, getattr.
  destruct (dict_get "api_filters" (attrs w)); auto.
  unfold try_body, bind.
  destruct (query_local_db env TruncateRaw w) as [w0 [q|e|]]; auto.
  destruct (page_loop env n w0) as [w1 r1] eqn:Hn.
  destruct r1 as [u|e|].
  - rewrite (@page_loop_fuel env n m w0 w1 _ Hle Hn) by discriminate. auto.
  - rewrite (@page_loop_fuel env n m w0 w1 _ Hle Hn) by discriminate. auto.
  - intros H Hr. inversion H; subst; contradiction.
Qed.



(** The stop side of the same statement, on the second page of the run:
    two requests, three rows staged, the loop returns. *)
Example page_loop_stops_on_last_page :
  snd (page_loop demo_env 2 demo_world) = Ret tt
  /\ map req_params (requests (fst (page_loop demo_env 2 demo_world)))
     = [[("page", VInt 1)]; [("page", VInt 2)]]
  /\ List.length (raw_data (fst (page_loop demo_env 2 demo_world))) = 3.
Proof. vm_compute. repeat split; reflexivity. Qed.

(** The whole run on two pages: two requests, three rows staged, the view
    exported once, "Object function stopped" last. *)
Example main_two_pages :
  snd (main demo_env 3 demo_world) = Ret tt
  /\ List.length (requests (fst (main demo_env 3 demo_world))) = 2
  /\ List.length (raw_data (fst (main demo_env 3 demo_world))) = 3
  /\ option_map df_len (final_csv (fst (main demo_env 3 demo_world))) = Some 3
  /\ last (logger (fst (main demo_env 3 demo_world))) (DEBUG, "")
     = (INFO, "Object function stopped").
Proof. vm_compute. repeat split; reflexivity. Qed.

(** The first response says [total = 0]: one fetch, nothing written, the
    loop ends at once. *)
Example page_loop_total_zero :
  let env := mkEnv (fun _ _ => Envelope no_rows (mkPage 1 2 0))
                   (fun _ => None) (fun raw => map (map snd) raw)
                   demo_columns demo_to_datetime None in
  snd (page_loop env 1 demo_world) = Ret tt
  /\ List.length (requests (fst (page_loop env 1 demo_world))) = 1
  /\ raw_data (fst (page_loop env 1 demo_world)) = []
  /\ db_ops (fst (page_loop env 1 demo_world)) = 0.
Proof. vm_compute. repeat split; reflexivity. Qed.

(** C2, as stated, fails: after the two-page run the [api_filters] section
    of the configuration holds page 2 where it held page 1. *)
Lemma main_advances_api_filters :
  dict_get "api_filters" (attrs demo_world) = Some [("page", VInt 1)]
  /\ dict_get "api_filters" (attrs (fst (main demo_env 5 demo_world)))
     = Some [("page", VInt 2)]
  /\ attrs (fst (main demo_env 5 demo_world)) <> attrs demo_world.
Proof.
  split; [reflexivity|]. split; [reflexivity|].
  intros H. apply (f_equal (dict_get "api_filters")) in H.
  vm_compute in H. discriminate H.
Qed.

(** Without the [api_filters] attribute the [AttributeError] of the first
    statement of [main] leaves [main], and no record, not even "Object
    function stopped", is logged. *)
Lemma main_without_api_filters :
  main demo_env 5 bare_world
  = (bare_world,
     Raise (mkExn AttributeError
              "'Truvi' object has no attribute 'api_filters'"))
  /\ logger (fst (main demo_env 5 bare_world)) = [].
Proof. split; reflexivity. Qed.



Lemma check_write_df_empty_witness :
  df_empty no_rows = true
  /\ check_write_df demo_env (demo_world, no_rows)
     = ((log INFO "Empty DataFrame" demo_world, no_rows), Ret tt)
  /\ raw_data (fst (fst (check_write_df demo_env (demo_world, no_rows))))
     = raw_data demo_world
  /\ db_ops (fst (fst (check_write_df demo_env (demo_world, no_rows))))
     = db_ops demo_world.
Proof.
  split; [reflexivity|].
  apply (check_write_df_empty demo_env demo_world no_rows).
  reflexivity.
Defined.

Lemma check_write_df_wrong_columns_witness :
  df_empty four_columns = false
  /\ List.length (df_columns four_columns) <> 5
  /\ snd (check_write_df demo_env (demo_world, four_columns))
     = Raise (mkExn IndexError "df has 4 columns, expected 5")
  /\ raw_data (fst (fst (check_write_df demo_env (demo_world, four_columns))))
     = raw_data demo_world.
Proof.
  assert (H1 : df_empty four_columns = false) by reflexivity.
  assert (H2 : List.length (df_columns four_columns) <> 5)
    by (simpl; discriminate).
  split; [exact H1|]. split; [exact H2|].
  destruct (check_write_df_wrong_columns demo_env demo_world four_columns H1 H2)
    as (Hr & _ & Hraw).
  split; [exact Hr | exact Hraw].
Defined.

Lemma check_write_df_wrong_columns_frame_witness :
  df_empty six_columns = false
  /\ List.length (df_columns six_columns) <> 5
  /\ check_write_df demo_env (demo_world, six_columns)
     = ((demo_world, six_columns),
        Raise (mkExn IndexError "df has 6 columns, expected 5")).
Proof.
  assert (H1 : df_empty six_columns = false) by reflexivity.
  assert (H2 : List.length (df_columns six_columns) <> 5)
    by (simpl; discriminate).
  split; [exact H1|]. split; [exact H2|].
  exact (check_write_df_wrong_columns_frame demo_env demo_world six_columns
           H1 H2).
Defined.

Lemma post_processing_empty_view_witness :
  final_table demo_env (raw_data demo_world) = []
  /\ snd (post_processing demo_env demo_world) = Raise no_data_in_view
  /\ final_csv (fst (post_processing demo_env demo_world)) = None.
Proof.
  assert (H : final_table demo_env (raw_data demo_world) = []) by reflexivity.
  split; [exact H|].
  destruct (post_processing_empty_view demo_env demo_world H)
    as (_ & Hcsv & Herr).
  split; [apply Herr; reflexivity | exact Hcsv].
Defined.

(* ================================================================== *)
(** * Further properties *)

(** ** [parse_config]: the mapping it returns *)

Lemma parse_config_clean_witness :
  has_section demo_parser "Database" = true
  /\ clean_sections demo_parser (sections demo_parser) = true
  /\ exists cfg,
       parse_config "config.ini" "Database" demo_parser [] = ([], Ret cfg)
       /\ forall s, In s (sections demo_parser) ->
            exists d, dict_get s cfg = Some d
              /\ forall k v, NoDup (map fst (items demo_parser s)) ->
                   In (k, v) (items demo_parser s) ->
                   dict_get k d = Some (converted v).
Proof.
  split; [reflexivity|]. split; [reflexivity|].
  exact (@parse_config_clean "config.ini" "Database" demo_parser []
           eq_refl eq_refl).
Defined.

Lemma parse_config_ret_inv (filename required : string)
  (parser : ConfigParser) (lg lg' : Logger) (cfg : Config) :
  parse_config filename required parser lg = (lg', Ret cfg) ->
  lg' = lg
  /\ has_section parser required = true
  /\ clean_sections parser (sections parser) = true
  /\ cfg = converted_sections parser (sections parser) [].
Proof.
  unfold parse_config.
  destruct (has_section parser required); simpl; [|discriminate].
  destruct (clean_sections parser (sections parser)) eqn:Hc.
  - rewrite convert_sections_clean by assumption.
    intros H; inversion H; auto.
  - destruct (convert_sections_dirty parser (sections parser) [] Hc) as [e ->].
    discriminate.
Qed.

Lemma dict_keys_set_fresh {V} (k : string) (v : V) (d : dict V) :
  ~ In k (dict_keys d) -> dict_keys (dict_set k v d) = dict_keys d ++ [k].
Proof.
  unfold dict_keys.
  induction d as [|[k' v'] t IH]; simpl; intros Hk; auto.
  destruct (String.eqb k k') eqn:E.
  - apply String.eqb_eq in E; subst; tauto.
  - simpl. rewrite IH; tauto.
Qed.

Lemma dict_keys_fold_set {V} (f : string -> V) (ks : list string) :
  forall acc : dict V,
    NoDup ks -> (forall k, In k ks -> ~ In k (dict_keys acc)) ->
    dict_keys (fold_left (fun a s => dict_set s (f s) a) ks acc)
    = dict_keys acc ++ ks.
Proof.
  induction ks as [|k t IH]; intros acc Hnd Hfresh; simpl.
  - now rewrite app_nil_r.
  - inversion Hnd as [|? ? Hk Ht]; subst.
    rewrite IH; auto.
    + rewrite dict_keys_set_fresh by (apply Hfresh; now left).
      now rewrite <- app_assoc.
    + intros k' Hk'. rewrite dict_keys_set_fresh by (apply Hfresh; now left).
      rewrite in_app_iff; intros [H|[H|[]]].
      * apply (Hfresh k'); [now right | exact H].
      * subst; contradiction.
Qed.

Lemma dict_keys_converted_items (kvs : list (string * string)) :
  NoDup (map fst kvs) ->
  dict_keys (converted_items kvs []) = map fst kvs.
Proof.
  intros Hnd. unfold converted_items.
  assert (E : forall acc : dict value,
             fold_left (fun a kv => dict_set (fst kv) (converted (snd kv)) a)
                       kvs acc
             = fold_left (fun a p => dict_set (fst p) (snd p) a)
                         (map (fun kv => (fst kv, converted (snd kv))) kvs) acc).
  { induction kvs as [|kv t IH]; intros acc; simpl; auto.
    inversion Hnd; subst. apply IH; assumption. }
  rewrite E. clear E.
  assert (G : forall (l : list (string * value)) (acc : dict value),
             NoDup (map fst l) ->
             (forall k, In k (map fst l) -> ~ In k (dict_keys acc)) ->
             dict_keys (fold_left (fun a p => dict_set (fst p) (snd p) a) l acc)
             = dict_keys acc ++ map fst l).
  { induction l as [|[k v] t IH]; intros acc Hn Hf; simpl.
    - now rewrite app_nil_r.
    - simpl in Hn. inversion Hn as [|? ? Hk Ht]; subst.
      rewrite IH; auto.
      + rewrite dict_keys_set_fresh by (apply Hf; now left).
        now rewrite <- app_assoc.
      + intros k' Hk'. rewrite dict_keys_set_fresh by (apply Hf; now left).
        rewrite in_app_iff; intros [H|[H|[]]].
        * apply (Hf k'); [now right | exact H].
        * subst; contradiction. }
  rewrite G; simpl.
  - now rewrite map_map, map_ext with (g := fst) by reflexivity.
  - now rewrite map_map, map_ext with (g := fst) by reflexivity.
  - intros k _ [].
Qed.


Lemma parse_config_ret_required (filename required : string)
  (parser : ConfigParser) (lg lg' : Logger) (cfg : Config) :
  parse_config filename required parser lg = (lg', Ret cfg) ->
  dict_get required cfg = Some (converted_items (items parser required) []).
Proof.
  intros H.
  destruct (parse_config_ret_inv _ _ _ _ H) as (_ & Hreq & _ & ->).
  rewrite converted_sections_get.
  unfold has_section in Hreq. now rewrite Hreq.
Qed.

(** After a successful [parse_config] the required section is in the
    mapping, so that [config_dict['Database']] cannot fail. *)
Theorem parse_config_required_present (filename required : string)
  (parser : ConfigParser) (lg lg' : Logger) (cfg : Config) :
  parse_config filename required parser lg = (lg', Ret cfg) ->
  dict_get required cfg = Some (converted_items (items parser required) []).
Proof. apply parse_config_ret_required. Qed.

(** ** [check_write_df]: what reaches the staging table *)

Lemma steady_refl s : steady s s.
Proof. repeat split; reflexivity. Qed.

Lemma steady_trans a b c : steady a b -> steady b c -> steady a c.
Proof.
  unfold steady; intros (?&?&?&?&?) (?&?&?&?&?); repeat split; congruence.
Qed.

Lemma convert_rows_length (env : Env) (key : string) (cols : list string) :
  forall rows rows',
    convert_rows env key cols rows = inr rows' ->
    List.length rows' = List.length rows.
Proof.
  induction rows as [|r rs IH]; intros rows' H; simpl in H.
  - inversion H; reflexivity.
  - destruct (convert_cells env key cols r); [discriminate|].
    destruct (convert_rows env key cols rs) as [|rs'] eqn:E; [discriminate|].
    inversion H; subst; simpl. now rewrite (IH rs').
Qed.

Lemma steady_convert_column (env : Env) key : mono steady (convert_column env key).
Proof.
  intros s; unfold convert_column.
  destruct (convert_rows env key _ _) as [e|rows] eqn:E; simpl.
  - apply steady_refl.
  - repeat split; simpl; auto. now apply convert_rows_length in E.
Qed.

Lemma steady_on_world_logm l msg : mono steady (on_world (logm l msg)).
Proof. intros s; repeat split; reflexivity. Qed.

Lemma steady_convert_dates (env : Env) keys : mono steady (convert_dates env keys).
Proof.
  induction keys as [|key rest IH]; simpl.
  - apply mono_ret, steady_refl.
  - assert (Hyes : mono steady
                      (convert_column env key ;;;
                       on_world (logm DEBUG ("Converted " ++ key ++ " to datetime")) ;;;
                       convert_dates env rest)).
    { apply mono_bind; [exact steady_trans | apply steady_convert_column |].
      intros _. apply mono_bind;
        [exact steady_trans | apply steady_on_world_logm | auto]. }
    intros s.
    destruct (existsb (String.eqb key) (df_columns (snd s)));
      [apply Hyes | apply IH].
Qed.

(** The stage on a frame that passed the two checks. *)
Lemma check_write_df_checked (env : Env) (w : World) (df : DataFrame) :
  df_empty df = false ->
  List.length (df_columns df) = 5 ->
  check_write_df env (w, df) =
    match dict_get "table_values" (attrs w) with
    | None =>
        ((w, df),
         Raise (mkExn AttributeError
                  "'Truvi' object has no attribute 'table_values'"))
    | Some tv =>
        match convert_dates env (dict_keys tv) (w, df) with
        | (s1, Ret _) =>
            match db_fault env (db_ops (fst s1)) with
            | Some e => ((tick_db (fst s1), snd s1), Raise e)
            | None =>
                ((log DEBUG "Dataframe written to database"
                    (set_raw_data (raw_data (fst s1) ++ rows_of (snd s1))
                                  (tick_db (fst s1))),
                  snd s1), Ret tt)
            end
        | (s1, Raise e) => (s1, Raise e)
        | (s1, Diverge) => (s1, Diverge)
        end
    end.
Proof.
  intros Hne Hcols.
  unfold check_write_df; simpl. rewrite Hne, Hcols; simpl.
  unfold bind at 1, on_world at 1, getattr; simpl.
  destruct (dict_get "table_values" (attrs w)) as [tv|]; [|reflexivity].
  unfold bind at 1.
  destruct (convert_dates env (dict_keys tv) (w, df)) as [[w1 df1] [u|e|]];
    try reflexivity.
  unfold bind, on_world, to_sql, logm; simpl.
  destruct (db_fault env (db_ops w1)); reflexivity.
Qed.

Lemma rows_of_length (df : DataFrame) : List.length (rows_of df) = df_len df.
Proof. unfold rows_of, df_len. apply length_map. Qed.

(** Whenever the stage raises, whatever the reason (column count, missing
    [table_values] attribute, a date that cannot be parsed, a database
    error), the staging table is what it was. *)
Theorem check_write_df_failure_writes_nothing (env : Env) (w : World)
  (df : DataFrame) (e : exn) :
  snd (check_write_df env (w, df)) = Raise e ->
  raw_data (fst (fst (check_write_df env (w, df)))) = raw_data w.
Proof.
  destruct (df_empty df) eqn:Hne.
  - unfold check_write_df; simpl; rewrite Hne. discriminate.
  - destruct (Nat.eq_dec (List.length (df_columns df)) 5) as [Hc|Hc].
    + rewrite (@check_write_df_checked env w df Hne Hc).
      destruct (dict_get "table_values" (attrs w)) as [tv|]; [|reflexivity].
      pose proof (steady_convert_dates env (dict_keys tv) (w, df)) as Hs.
      destruct (convert_dates env (dict_keys tv) (w, df)) as [s1 [u|e1|]];
        destruct Hs as (Hraw & _); simpl in *; auto.
      destruct (db_fault env (db_ops (fst s1))); simpl; auto.
      discriminate.
    + unfold check_write_df; simpl. rewrite Hne.
      apply Nat.eqb_neq in Hc. rewrite Hc. reflexivity.
Qed.

(** When the stage returns on a frame that is not empty, the staging table
    is the old one followed by the rows of the frame as it is after the date
    conversion: one row per row of the input, under the same column labels,
    written by a single database operation. *)
Theorem check_write_df_appends (env : Env) (w : World) (df : DataFrame)
  (s : World * DataFrame) :
  check_write_df env (w, df) = (s, Ret tt) ->
  df_empty df = false ->
  raw_data (fst s) = raw_data w ++ rows_of (snd s)
  /\ df_columns (snd s) = df_columns df
  /\ List.length (raw_data (fst s)) = List.length (raw_data w) + df_len df
  /\ db_ops (fst s) = S (db_ops w).
Proof.
  intros H Hne.
  destruct (Nat.eq_dec (List.length (df_columns df)) 5) as [Hc|Hc].
  - rewrite (@check_write_df_checked env w df Hne Hc) in H.
    destruct (dict_get "table_values" (attrs w)) as [tv|]; [|discriminate].
    pose proof (steady_convert_dates env (dict_keys tv) (w, df)) as Hs.
    destruct (convert_dates env (dict_keys tv) (w, df)) as [s1 [u|e1|]];
      try discriminate.
    destruct Hs as (Hraw & Hops & _ & Hcols & Hlen); simpl in *.
    destruct (db_fault env (db_ops (fst s1))); [discriminate|].
    inversion H; subst s; simpl.
    rewrite Hraw, Hops, Hcols. repeat split; auto.
    rewrite length_app, rows_of_length. unfold df_len. now rewrite Hlen.
  - unfold check_write_df in H; simpl in H. rewrite Hne in H.
    apply Nat.eqb_neq in Hc. rewrite Hc in H. discriminate.
Qed.

Lemma convert_cells_other (env : Env) (key c : string) (cols : list string) :
  c <> key ->
  forall cells cells',
    convert_cells env key cols cells = inr cells' ->
    dict_get c (combine cols cells') = dict_get c (combine cols cells).
Proof.
  intros Hne. induction cols as [|c0 cs IH]; intros cells cells' H.
  - simpl in H. inversion H; reflexivity.
  - destruct cells as [|x xs]; simpl in H; [inversion H; reflexivity|].
    destruct (String.eqb key c0) eqn:Ek.
    + destruct (to_datetime env x) as [e|x']; [discriminate|].
      destruct (convert_cells env key cs xs) as [e|xs'] eqn:E; [discriminate|].
      inversion H; subst; simpl.
      destruct (String.eqb c c0) eqn:Ec.
      * apply String.eqb_eq in Ek, Ec; subst; contradiction.
      * now apply IH.
    + destruct (convert_cells env key cs xs) as [e|xs'] eqn:E; [discriminate|].
      inversion H; subst; simpl.
      destruct (String.eqb c c0); [reflexivity | now apply IH].
Qed.

Lemma convert_rows_other (env : Env) (key c : string) (cols : list string) :
  c <> key ->
  forall rows rows',
    convert_rows env key cols rows = inr rows' ->
    map (fun r => dict_get c (combine cols r)) rows'
    = map (fun r => dict_get c (combine cols r)) rows.
Proof.
  intros Hne. induction rows as [|r rs IH]; intros rows' H; simpl in H.
  - inversion H; reflexivity.
  - destruct (convert_cells env key cols r) as [e|r'] eqn:Er; [discriminate|].
    destruct (convert_rows env key cols rs) as [e|rs'] eqn:E; [discriminate|].
    inversion H; subst; simpl.
    rewrite (@convert_cells_other env key c cols Hne _ _ Er). now rewrite (IH rs').
Qed.

Lemma untouched_refl c s : untouched c s s.
Proof. split; reflexivity. Qed.

Lemma untouched_trans c x y z :
  untouched c x y -> untouched c y z -> untouched c x z.
Proof. unfold untouched; intros [] []; split; congruence. Qed.

Lemma untouched_convert_column (env : Env) (key c : string) :
  c <> key -> mono (untouched c) (convert_column env key).
Proof.
  intros Hne s; unfold convert_column.
  destruct (convert_rows env key _ _) as [e|rows] eqn:E; simpl.
  - apply untouched_refl.
  - split; simpl; [reflexivity|].
    unfold column; simpl. now apply (@convert_rows_other env key c _ Hne _ _ E).
Qed.

Lemma untouched_convert_dates (env : Env) (c : string) keys :
  ~ In c keys -> mono (untouched c) (convert_dates env keys).
Proof.
  induction keys as [|key rest IH]; simpl; intros Hc.
  - apply mono_ret, untouched_refl.
  - assert (Hyes : mono (untouched c)
                      (convert_column env key ;;;
                       on_world (logm DEBUG ("Converted " ++ key ++ " to datetime")) ;;;
                       convert_dates env rest)).
    { apply mono_bind; [exact (@untouched_trans c) | |].
      - apply untouched_convert_column. intros ->; tauto.
      - intros _. apply mono_bind; [exact (@untouched_trans c) | |].
        + intros s; split; reflexivity.
        + intros _. apply IH; tauto. }
    intros s.
    destruct (existsb (String.eqb key) (df_columns (snd s)));
      [apply Hyes | apply IH; tauto].
Qed.

(** The date conversion touches only the columns named in
    [table_values]: any other column of the frame is, after the stage,
    cell for cell what it was, however the stage ends. *)
Theorem check_write_df_other_columns (env : Env) (w : World) (df : DataFrame)
  (c : string) :
  (forall tv, dict_get "table_values" (attrs w) = Some tv ->
              ~ In c (dict_keys tv)) ->
  column c (snd (fst (check_write_df env (w, df)))) = column c df.
Proof.
  intros Hc.
  destruct (df_empty df) eqn:Hne.
  - unfold check_write_df; simpl; rewrite Hne. reflexivity.
  - destruct (Nat.eq_dec (List.length (df_columns df)) 5) as [H5|H5].
    + rewrite (@check_write_df_checked env w df Hne H5).
      destruct (dict_get "table_values" (attrs w)) as [tv|] eqn:Htv;
        [|reflexivity].
      pose proof (@untouched_convert_dates env c (dict_keys tv)
                    (Hc tv eq_refl) (w, df)) as [_ Hu].
      destruct (convert_dates env (dict_keys tv) (w, df)) as [s1 [u|e1|]];
        simpl in *; auto.
      destruct (db_fault env (db_ops (fst s1))); exact Hu.
    + unfold check_write_df; simpl. rewrite Hne.
      apply Nat.eqb_neq in H5. rewrite H5. reflexivity.
Qed.

(** ** [get_api_data]: what one call does to the world *)


(** ** [post_processing]: the export *)

Lemma first_items_names (cols : list string) :
  first_items (map (fun c => [CStr c]) cols) = Ret cols.
Proof.
  induction cols as [|c t IH]; simpl; auto. now rewrite IH.
Qed.


Lemma query_select_reads (env : Env) (q : query) (w : World) :
  q <> TruncateRaw ->
  raw_data (fst (query_local_db env q w)) = raw_data w
  /\ final_csv (fst (query_local_db env q w)) = final_csv w.
Proof.
  intros Hq; unfold query_local_db.
  destruct (db_fault env (db_ops w)) as [e|].
  - destruct (expected_db_error e); split; reflexivity.
  - destruct q; try contradiction; split; reflexivity.
Qed.

Lemma post_processing_raise_csv (env : Env) (w : World) (e : exn) :
  snd (post_processing env w) = Raise e ->
  final_csv (fst (post_processing env w)) = final_csv w
  \/ exists partial,
       to_csv_fault env = Some (e, Some partial)
       /\ final_csv (fst (post_processing env w)) = Some partial.
Proof.
  unfold post_processing, bind.
  destruct (@query_select_reads env SelectFinal w) as [R1 C1]; [discriminate|].
  destruct (query_local_db env SelectFinal w) as [w1 [data|e1|]];
    simpl in R1, C1; simpl; auto.
  destruct (result_len data =? 0)%nat; [unfold raise; simpl; auto|].
  destruct (@query_select_reads env SelectFinalColumns w1) as [R2 C2];
    [discriminate|].
  destruct (query_local_db env SelectFinalColumns w1) as [w2 [cols|e2|]];
    simpl in R2, C2; simpl; try (left; congruence).
  unfold pure.
  destruct (column_names cols) as [names|e3|]; simpl; try (left; congruence).
  destruct (make_frame data names) as [df|e4|]; simpl; try (left; congruence).
  unfold to_csv.
  destruct (to_csv_fault env) as [[e5 [partial|]]|]; simpl.
  - intros H; inversion H; subst. right; exists partial; auto.
  - intros _; left; congruence.
  - discriminate.
Qed.

Lemma post_processing_keeps_raw_data (env : Env) (w : World) :
  raw_data (fst (post_processing env w)) = raw_data w.
Proof.
  unfold post_processing, bind.
  destruct (@query_select_reads env SelectFinal w) as [R1 _]; [discriminate|].
  destruct (query_local_db env SelectFinal w) as [w1 [data|e1|]];
    simpl in R1; simpl; auto.
  destruct (result_len data =? 0)%nat; [unfold raise; simpl; auto|].
  destruct (@query_select_reads env SelectFinalColumns w1) as [R2 _];
    [discriminate|].
  destruct (query_local_db env SelectFinalColumns w1) as [w2 [cols|e2|]];
    simpl in R2; simpl; try congruence.
  unfold pure.
  destruct (column_names cols) as [names|e3|]; simpl; try congruence.
  destruct (make_frame data names) as [df|e4|]; simpl; try congruence.
  unfold to_csv.
  destruct (to_csv_fault env) as [[e5 [partial|]]|]; simpl; congruence.
Qed.

(** The export never changes the staging table.  When it raises, the csv
    file is as it was, unless what failed is the write itself after the file
    had been opened: then the file holds what the failed write left. *)
Theorem post_processing_failure_keeps_csv (env : Env) (w : World) :
  raw_data (fst (post_processing env w)) = raw_data w
  /\ (forall e, snd (post_processing env w) = Raise e ->
        final_csv (fst (post_processing env w)) = final_csv w
        \/ exists partial,
             to_csv_fault env = Some (e, Some partial)
             /\ final_csv (fst (post_processing env w)) = Some partial).
Proof.
  split; [apply post_processing_keeps_raw_data|].
  intros e. apply post_processing_raise_csv.
Qed.

(** ** The page loop and the staging table *)

Lemma staging_refl w : staging w w.
Proof. split; [reflexivity | exists []; now rewrite app_nil_r]. Qed.

Lemma staging_trans a b c : staging a b -> staging b c -> staging a c.
Proof.
  intros [C1 [t1 H1]] [C2 [t2 H2]]; split; [congruence|].
  exists (t1 ++ t2). now rewrite H2, H1, app_assoc.
Qed.

Lemma staging_same w w' :
  final_csv w' = final_csv w -> raw_data w' = raw_data w -> staging w w'.
Proof.
  intros Hc Hr; split; [exact Hc | exists []; now rewrite app_nil_r].
Qed.

Lemma staging_logm l msg : mono staging (logm l msg).
Proof. intros w; apply staging_same; reflexivity. Qed.

Lemma staging_get_api_data (env : Env) params :
  mono staging (get_api_data env params).
Proof.
  intros w.
  destruct (get_api_data_cases env params w) as [[e ->]|(u & r & _ & ->)];
    apply staging_same; reflexivity.
Qed.

Lemma staging_incr_page : mono staging incr_page.
Proof.
  intros w.
  destruct (incr_page_cases w) as [(e & -> & _)|(p & Hp & ->)];
    apply staging_same; reflexivity.
Qed.

Lemma staging_check_write_df (env : Env) (df : DataFrame) :
  mono staging (with_frame df (check_write_df env)).
Proof.
  intros w; unfold with_frame.
  destruct (df_empty df) eqn:Hne.
  - unfold check_write_df; simpl; rewrite Hne.
    apply staging_same; reflexivity.
  - destruct (Nat.eq_dec (List.length (df_columns df)) 5) as [H5|H5].
    + rewrite (@check_write_df_checked env w df Hne H5).
      destruct (dict_get "table_values" (attrs w)) as [tv|];
        [|apply staging_refl].
      pose proof (steady_convert_dates env (dict_keys tv) (w, df)) as Hs.
      destruct (convert_dates env (dict_keys tv) (w, df)) as [s1 [u|e1|]];
        destruct Hs as (Hraw & _ & Hcsv & _); simpl in *.
      * destruct (db_fault env (db_ops (fst s1))); simpl;
          (split; [exact Hcsv|]).
        -- exists []; now rewrite app_nil_r.
        -- exists (rows_of (snd s1)). now rewrite Hraw.
      * split; [exact Hcsv | exists []; now rewrite app_nil_r].
      * split; [exact Hcsv | exists []; now rewrite app_nil_r].
    + unfold check_write_df; simpl. rewrite Hne.
      apply Nat.eqb_neq in H5. rewrite H5. apply staging_refl.
Qed.

Lemma staging_loop_turn (env : Env) (k : M World unit) :
  mono staging k -> mono staging (loop_turn env k).
Proof.
  intros Hk w; unfold loop_turn.
  apply mono_bind; [exact staging_trans | apply staging_get_api_data |].
  intros [df info].
  apply mono_bind; [exact staging_trans | apply staging_logm |].
  intros _.
  apply mono_bind; [exact staging_trans | apply staging_check_write_df |].
  intros _. apply mono_if; [apply staging_logm|].
  apply mono_bind; [exact staging_trans | apply staging_incr_page | auto].
Qed.

Lemma staging_page_loop (env : Env) (fuel : nat) :
  mono staging (page_loop env fuel).
Proof.
  induction fuel as [|n IH]; simpl.
  - intros w0; apply staging_refl.
  - now apply staging_loop_turn.
Qed.

(** The page loop never removes or rewrites a staged row and never touches
    the csv file, however long it runs and however it ends. *)
Theorem page_loop_append_only (env : Env) (fuel : nat) (w : World) :
  (exists tail, raw_data (fst (page_loop env fuel w)) = raw_data w ++ tail)
  /\ final_csv (fst (page_loop env fuel w)) = final_csv w.
Proof.
  destruct (staging_page_loop env fuel w) as [Hcsv Htail]. split; assumption.
Qed.

(** ** [Truvi.main]: the run as a whole *)

Lemma query_keeps_csv (env : Env) (q : query) (w : World) :
  final_csv (fst (query_local_db env q w)) = final_csv w.
Proof.
  unfold query_local_db.
  destruct (db_fault env (db_ops w)) as [e|].
  - destruct (expected_db_error e); reflexivity.
  - destruct q; reflexivity.
Qed.

(** A run whose reset, page loop or post-processing raised leaves the csv
    file exactly as it found it, as long as the failure is not that of a
    write which had already opened the file. *)
Theorem main_failure_keeps_csv (env : Env) (fuel : nat) (w : World) (e : exn) :
  (forall e' partial, to_csv_fault env <> Some (e', Some partial)) ->
  snd (try_body env fuel w) = Raise e ->
  final_csv (fst (main env fuel w)) = final_csv w.
Proof.
  intros Hwrite H.
  assert (Hbody : final_csv (fst (try_body env fuel w)) = final_csv w).
  { revert H. unfold try_body, bind.
    pose proof (query_keeps_csv env TruncateRaw w) as Hq.
    destruct (query_local_db env TruncateRaw w) as [w0 [r|e0|]];
      simpl in *; auto.
    destruct (staging_page_loop env fuel w0) as [Hl _].
    destruct (page_loop env fuel w0) as [w1 [u|e1|]]; simpl in *;
      try congruence.
    intros H.
    destruct (@post_processing_raise_csv env w1 e H) as [Hc|(partial & Hf & _)].
    - congruence.
    - exfalso. exact (Hwrite e partial Hf). }
  unfold main, bind, getattr.
  destruct (dict_get "api_filters" (attrs w)); [|reflexivity].
  destruct (try_body env fuel w) as [w1 [u|e1|]]; simpl in *;
    try discriminate; exact Hbody.
Qed.


(** On an object with [api_filters] and no section named after its own
    attributes or methods: when the reset itself fails, the run stops there;
    no request is sent, the staging table is not emptied, the csv file is
    not written, and [main] still returns after logging the failure and the
    final record. *)
Theorem main_reset_failure (env : Env) (fuel : nat) (w : World) (e : exn) :
  intact (attrs w) = true ->
  dict_has "api_filters" (attrs w) = true ->
  db_fault env (db_ops w) = Some e ->
  snd (Truvi_main env fuel w) = Ret tt
  /\ requests (fst (Truvi_main env fuel w)) = requests w
  /\ raw_data (fst (Truvi_main env fuel w)) = raw_data w
  /\ final_csv (fst (Truvi_main env fuel w)) = final_csv w
  /\ attrs (fst (Truvi_main env fuel w)) = attrs w
  /\ logger (fst (Truvi_main env fuel w))
     = logger w
       ++ (if expected_db_error e
           then [(CRITICAL,
                  ("truncate table data.raw_data; failed with " ++ exn_msg e)%string)]
           else [])
       ++ [(CRITICAL, ("Processing failed with " ++ exn_msg e)%string);
           (INFO, "Object function stopped")].
Proof.
  intros Hi Ha Hf.
  rewrite (Truvi_main_intact env fuel w Hi).
  rewrite main_with_api_filters by exact Ha.
  unfold try_body, bind, query_local_db. rewrite Hf.
  destruct (expected_db_error e); simpl; repeat split; auto;
    unfold emit; rewrite <- ?app_assoc; reflexivity.
Qed.

(** ** The page loop: which pages are asked for *)

Lemma after_fetch_cases (env : Env) (k : M World unit) (df : DataFrame)
  (info : page_info) (w1 : World) :
  after_fetch env k df info w1 =
    match check_write_df env (fetched info df w1, df) with
    | (s, Ret _) =>
        if all_pages_fetched info
        then (log INFO "All pages fetched" (fst s), Ret tt)
        else match incr_page (fst s) with
             | (w2, Ret _) => k w2
             | (w2, Raise e) => (w2, Raise e)
             | (w2, Diverge) => (w2, Diverge)
             end
    | (s, Raise e) => (fst s, Raise e)
    | (s, Diverge) => (fst s, Diverge)
    end.
Proof.
  unfold after_fetch, bind at 1, logm at 1.
  unfold bind at 1, with_frame.
  change (log INFO _ w1) with (fetched info df w1).
  destruct (check_write_df env (fetched info df w1, df)) as [s [u|e|]];
    try reflexivity.
  destruct (all_pages_fetched info); [reflexivity|].
  unfold bind. destruct (incr_page (fst s)) as [w2 [u'|e|]]; reflexivity.
Qed.

Lemma pages_from_length (p : Z) (k : nat) :
  List.length (pages_from p k) = k.
Proof. revert p; induction k; intros p; simpl; auto. Qed.

Lemma page_loop_pages (env : Env) (n : nat) :
  forall (w w' : World) (p : Z),
    dict_get "page" (api_parameters w) = Some (VInt p) ->
    page_loop env n w = (w', Ret tt) ->
    exists k sent,
      requests w' = requests w ++ sent
      /\ map page_of sent = pages_from p (S k)
      /\ dict_get "page" (api_parameters w') = Some (VInt (p + Z.of_nat k)).
Proof.
  induction n as [|n IH]; intros w w' p Hp H; simpl in H; [discriminate|].
  rewrite loop_turn_unfold in H.
  destruct (get_api_data env (api_parameters w) w) as [w1 [[df info]|e|]] eqn:Hget;
    try discriminate.
  destruct (get_api_data_ret_inv _ _ _ Hget) as (api & base & u & _ & _ & _ & Hw1).
  rewrite after_fetch_cases in H.
  pose proof (calm_check_write_df env (fetched info df w1, df)) as Hcalm.
  destruct (check_write_df env (fetched info df w1, df)) as [s [[]|e|]];
    try discriminate.
  unfold on_fst, calm in Hcalm; simpl in Hcalm.
  destruct Hcalm as [Hattrs Hreqs].
  assert (Hattrs_w : attrs (fst s) = attrs w)
    by (rewrite Hattrs, Hw1; reflexivity).
  assert (Hreqs_w : requests (fst s)
                    = requests w ++ [mkReq u (api_parameters w)])
    by (rewrite Hreqs, Hw1; reflexivity).
  destruct (all_pages_fetched info).
  - inversion H; subst w'. exists 0, [mkReq u (api_parameters w)].
    split; [exact Hreqs_w|]. split.
    + simpl. unfold page_of; simpl. now rewrite Hp.
    + unfold api_parameters in *; simpl. rewrite Hattrs_w, Hp.
      do 2 f_equal. lia.
  - assert (Hp' : dict_get "page" (api_parameters (fst s)) = Some (VInt p))
      by (unfold api_parameters in *; now rewrite Hattrs_w).
    unfold incr_page in H. rewrite Hp' in H.
    set (w2 := set_attrs _ (fst s)) in H.
    assert (Hp2 : dict_get "page" (api_parameters w2) = Some (VInt (p + 1))).
    { unfold w2, api_parameters at 1; simpl.
      rewrite dict_get_set_same. apply dict_get_set_same. }
    destruct (IH w2 w' (p + 1)%Z Hp2 H) as (k & sent & Hs & Hpages & Hlast).
    exists (S k), (mkReq u (api_parameters w) :: sent).
    split; [|split].
    + rewrite Hs. unfold w2; simpl. rewrite Hreqs_w.
      now rewrite <- app_assoc.
    + simpl. unfold page_of at 1; simpl. rewrite Hp. f_equal. exact Hpages.
    + rewrite Hlast. do 2 f_equal. lia.
Qed.

(** A page loop that returns has asked for consecutive pages, each exactly
    once and in ascending order, starting from the [page] entry of
    [api_filters]; that entry ends on the number of the last page asked
    for. *)
Theorem page_loop_consecutive_pages (env : Env) (n : nat) (w w' : World)
  (p : Z) :
  dict_get "page" (api_parameters w) = Some (VInt p) ->
  page_loop env n w = (w', Ret tt) ->
  exists k sent,
    requests w' = requests w ++ sent
    /\ List.length sent = S k
    /\ map page_of sent = pages_from p (S k)
    /\ dict_get "page" (api_parameters w') = Some (VInt (p + Z.of_nat k)).
Proof.
  intros Hp H.
  destruct (page_loop_pages env n w Hp H) as (k & sent & Hs & Hpages & Hlast).
  exists k, sent. repeat split; auto.
  rewrite <- (length_map page_of), Hpages. apply pages_from_length.
Qed.


(** ** From the configuration file to the page parameter *)

(** What the [page] entry of the file becomes by the time the loop wants to
    add one to it: written as a decimal number it is an integer and the
    increment goes through; written in any other way that [parse_config]
    accepts (a sign, a blank, a word) it stays a string and the increment
    raises a [TypeError]. *)
Theorem config_page_entry (filename required : string)
  (parser : ConfigParser) (lg lg' : Logger) (cfg : Config)
  (folder : string) (w0 : World) (v : string) :
  parse_config filename required parser lg = (lg', Ret cfg) ->
  In "api_filters" (sections parser) ->
  NoDup (map fst (items parser "api_filters")) ->
  In ("page", v) (items parser "api_filters") ->
  (isdecimal v = true ->
   exists w2,
     incr_page (Truvi_new cfg folder w0) = (w2, Ret tt)
     /\ dict_get "page" (api_parameters w2)
        = Some (VInt (digits_value 0 v + 1)))
  /\ (isdecimal v = false ->
      exists e,
        incr_page (Truvi_new cfg folder w0) = (Truvi_new cfg folder w0, Raise e)
        /\ exn_cls e = TypeError).
Proof.
  intros H Hsec Hnd Hin.
  destruct (parse_config_ret_inv _ _ _ _ H) as (_ & _ & _ & ->).
  assert (Hparams : api_parameters
                      (Truvi_new (converted_sections parser (sections parser) [])
                                 folder w0)
                    = converted_items (items parser "api_filters") []).
  { unfold api_parameters; simpl. rewrite converted_sections_get.
    apply has_section_In in Hsec. unfold has_section in Hsec.
    now rewrite Hsec. }
  assert (Hpage : dict_get "page" (converted_items (items parser "api_filters") [])
                  = Some (converted v))
    by (now apply converted_items_get).
  split; intros Hv.
  - unfold incr_page. rewrite Hparams, Hpage. unfold converted. rewrite Hv.
    eexists; split; [reflexivity|].
    unfold api_parameters; simpl.
    rewrite dict_get_set_same. apply dict_get_set_same.
  - unfold incr_page. rewrite Hparams, Hpage. unfold converted. rewrite Hv.
    eexists; split; reflexivity.
Qed.

(** ** [parse_config] from the file on *)

Lemma convert_sections_file_ret (bad : string -> option exn)
  (parser : ConfigParser) (secs : list string) :
  forall acc cfg,
    convert_sections_file bad parser secs acc = Ret cfg ->
    convert_sections parser secs acc = Ret cfg
    /\ forall s, In s secs -> bad s = None.
Proof.
  induction secs as [|s t IH]; intros acc cfg H; simpl in *.
  - split; [exact H | intros ? []].
  - destruct (bad s) eqn:Hb; [discriminate|].
    destruct (convert_items (items parser s) []) as [d|e|]; simpl in *;
      try discriminate.
    destruct (IH _ _ H) as [Hc Hall]. split; [exact Hc|].
    intros s' [<-|Hs']; auto.
Qed.

Lemma convert_sections_file_plain (bad : string -> option exn)
  (parser : ConfigParser) (secs : list string) :
  (forall s, In s secs -> bad s = None) ->
  forall acc,
    convert_sections_file bad parser secs acc
    = convert_sections parser secs acc.
Proof.
  induction secs as [|s t IH]; intros Hall acc; simpl; auto.
  rewrite (Hall s) by now left.
  destruct (convert_items (items parser s) []) as [d|e|]; simpl; auto.
  apply IH. intros s' Hs'. apply Hall. now right.
Qed.

Lemma parse_config_file_readable (filename required : string)
  (parser : ConfigParser) (bad : string -> option exn) (lg : Logger) :
  (forall s, In s (sections parser) -> bad s = None) ->
  parse_config_file filename required (Readable parser bad) lg
  = parse_config filename required parser lg.
Proof.
  intros Hall. unfold parse_config_file, parse_config.
  destruct (negb (has_section parser required)); [reflexivity|].
  now rewrite convert_sections_file_plain.
Qed.

Lemma parse_config_file_ret_inv (filename required : string)
  (file : config_file) (lg lg' : Logger) (cfg : Config) :
  parse_config_file filename required file lg = (lg', Ret cfg) ->
  exists parser bad,
    file = Readable parser bad
    /\ (forall s, In s (sections parser) -> bad s = None)
    /\ parse_config filename required parser lg = (lg', Ret cfg).
Proof.
  destruct file as [e|parser bad]; simpl; [discriminate|].
  intros H. exists parser, bad. split; [reflexivity|].
  assert (Hall : forall s, In s (sections parser) -> bad s = None).
  { revert H. unfold parse_config_file.
    destruct (negb (has_section parser required)); [discriminate|].
    intros H. inversion H as [[Hl Hc]].
    destruct (convert_sections_file bad parser (sections parser) [])
      as [c|e|] eqn:E; try discriminate.
    apply (convert_sections_file_ret _ _ _ _ E). }
  split; [exact Hall|].
  now rewrite <- (@parse_config_file_readable filename required parser bad lg Hall).
Qed.

Lemma clean_items_false (kvs : list (string * string)) :
  clean_items kvs = false <->
  exists k v, In (k, v) kvs /\ clean_value v = false.
Proof.
  unfold clean_items. induction kvs as [|[k v] t IH]; simpl.
  - split; [discriminate | intros (? & ? & [] & _)].
  - destruct (clean_value v) eqn:Hv; simpl.
    + rewrite IH. split.
      * intros (k' & v' & Hin & Hc). exists k', v'; auto.
      * intros (k' & v' & [E|Hin] & Hc); [|eauto].
        inversion E; subst. congruence.
    + split; [intros _; exists k, v; auto | reflexivity].
Qed.

Lemma convert_sections_file_raises (bad : string -> option exn)
  (parser : ConfigParser) (secs : list string) :
  forall acc,
    (exists e, convert_sections_file bad parser secs acc = Raise e)
    <-> exists s, In s secs
          /\ (bad s <> None \/ clean_items (items parser s) = false).
Proof.
  induction secs as [|s t IH]; intros acc; simpl.
  - split; [intros [e H]; discriminate | intros (? & [] & _)].
  - destruct (bad s) as [e0|] eqn:Hb.
    + split; [|eauto]. intros _. exists s. split; [now left|].
      left. congruence.
    + destruct (clean_items (items parser s)) eqn:Hc.
      * rewrite (convert_items_clean _ _ Hc); simpl. rewrite IH. split.
        -- intros (s' & Hin & H). exists s'; auto.
        -- intros (s' & [<-|Hin] & H); [|eauto].
           destruct H as [H|H]; congruence.
      * destruct (convert_items_dirty _ [] Hc) as [e ->]; simpl.
        split; [|eauto]. intros _. exists s. split; [now left | now right].
Qed.

(** C7 (amended): when [ConfigParser] could read the file and the required
    section is not among its sections, [parse_config] emits one record at
    critical severity and then fails with a [ValueError] that carries the
    same message. *)
Theorem parse_config_file_missing_section (filename required : string)
  (parser : ConfigParser) (bad : string -> option exn) (logger : Logger) :
  has_section parser required = false ->
  parse_config_file filename required (Readable parser bad) logger =
    (emit CRITICAL (missing_section_msg required filename) logger,
     Raise (mkExn ValueError (missing_section_msg required filename))).
Proof.
  intros H; unfold parse_config_file; now rewrite H.
Qed.

Lemma parse_config_file_missing_section_witness :
  has_section [("api", [("base_url", "http://x")])] "Database" = false
  /\ parse_config_file "config.ini" "Database"
       (Readable [("api", [("base_url", "http://x")])] (fun _ => None)) [] =
     ([(CRITICAL,
        "Required section 'Database' not found in the config.ini file")],
      Raise (mkExn ValueError
        "Required section 'Database' not found in the config.ini file")).
Proof.
  split; [reflexivity|].
  apply (@parse_config_file_missing_section "config.ini" "Database"
           [("api", [("base_url", "http://x")])] (fun _ => None) []).
  reflexivity.
Defined.

(** C7, as stated, fails: a file without any section header lacks the
    required section, yet [parser.read] raises its own error first; no
    record is logged and the exception is not the [ValueError] of
    [parse_config]. *)
Lemma parse_config_file_without_header :
  parse_config_file "config.ini" "Database" (Unreadable no_section_header) []
  = ([], Raise no_section_header)
  /\ exn_cls no_section_header <> ValueError.
Proof. split; [reflexivity | discriminate]. Qed.

(** When [ConfigParser] reads the file and yields the pairs of every
    section, the required section is present and every value that passes
    [isdigit] is a decimal literal of at most [int_max_str_digits] digits,
    [parse_config] returns without logging, and the mapping holds an integer
    for each decimal string and the string itself for every other value. *)
Theorem parse_config_file_clean (filename required : string)
  (parser : ConfigParser) (bad : string -> option exn) (logger : Logger) :
  (forall s, In s (sections parser) -> bad s = None) ->
  has_section parser required = true ->
  clean_sections parser (sections parser) = true ->
  exists cfg,
    parse_config_file filename required (Readable parser bad) logger
    = (logger, Ret cfg)
    /\ forall s, In s (sections parser) ->
         exists d, dict_get s cfg = Some d
           /\ forall k v, NoDup (map fst (items parser s)) ->
                In (k, v) (items parser s) ->
                dict_get k d = Some (converted v).
Proof.
  intros Hall Hreq Hclean.
  rewrite (@parse_config_file_readable filename required parser bad logger Hall).
  now apply parse_config_clean.
Qed.

Lemma parse_config_file_clean_witness :
  (forall s, In s (sections demo_parser) -> (fun _ : string => @None exn) s = None)
  /\ has_section demo_parser "Database" = true
  /\ clean_sections demo_parser (sections demo_parser) = true
  /\ exists cfg,
       parse_config_file "config.ini" "Database"
         (Readable demo_parser (fun _ => None)) [] = ([], Ret cfg)
       /\ forall s, In s (sections demo_parser) ->
            exists d, dict_get s cfg = Some d
              /\ forall k v, NoDup (map fst (items demo_parser s)) ->
                   In (k, v) (items demo_parser s) ->
                   dict_get k d = Some (converted v).
Proof.
  split; [intros s _; reflexivity|].
  split; [reflexivity|]. split; [reflexivity|].
  exact (@parse_config_file_clean "config.ini" "Database" demo_parser
           (fun _ => None) [] (fun _ _ => eq_refl) eq_refl eq_refl).
Defined.

(** From the file on, [parse_config] raises exactly when [parser.read]
    raises, or the required section is absent, or, for some section,
    [parser.items] raises or a value passes [isdigit] and is refused by
    [int] (it is not a decimal literal, or has more than
    [int_max_str_digits] digits).  No other section or key is required. *)
Theorem parse_config_file_raises_iff (filename required : string)
  (file : config_file) (logger : Logger) :
  (exists e, snd (parse_config_file filename required file logger) = Raise e)
  <->
  match file with
  | Unreadable _ => True
  | Readable parser bad =>
      has_section parser required = false
      \/ exists s, In s (sections parser)
           /\ (bad s <> None
               \/ exists k v, In (k, v) (items parser s)
                    /\ isdigit v = true
                    /\ (isdecimal v = false \/ too_long v = true))
  end.
Proof.
  destruct file as [e0|parser bad]; simpl.
  - split; [auto | intros _; eauto].
  - unfold parse_config_file.
    destruct (has_section parser required) eqn:Hreq; simpl.
    + rewrite convert_sections_file_raises. split.
      * intros (s & Hin & [H|H]); right; exists s; split; auto.
        right. apply clean_items_false in H as (k & v & Hkv & Hc).
        apply clean_value_false in Hc. exists k, v; auto.
      * intros [H|(s & Hin & [H|(k & v & Hkv & Hc)])]; [discriminate| |];
          exists s; split; auto.
        right. apply clean_items_false. exists k, v. split; auto.
        now apply clean_value_false.
    + split; [now left | intros _; eauto].
Qed.

(** ** The script entry point *)

(** The process exits, with code 1 and two records at critical severity,
    exactly when the command line does not have one argument; nothing else
    has happened then. *)
Theorem script_main_exits_iff_wrong_arguments (sc : Script) (env : Env)
  (fuel : nat) (argv : list string) (w : World) :
  (List.length argv <> 2 ->
   script_main sc env fuel argv w
   = (log CRITICAL "Usage: python script_name.py config_file_name"
        (log CRITICAL
           ("Invalid number of CLI arguments: " ++ argv_repr sc argv) w),
      Exited 1))
  /\ (List.length argv = 2 ->
      forall c, snd (script_main sc env fuel argv w) <> Exited c).
Proof.
  unfold script_main. split; intros Hlen.
  - apply Nat.eqb_neq in Hlen. now rewrite Hlen.
  - rewrite Hlen; simpl. intros c.
    destruct (parse_config_file _ _ _ _) as [lg [cfg|e|]]; try discriminate.
    destruct (dict_get "Database" cfg) as [d|]; try discriminate.
    destruct (engine_error sc d); try discriminate.
    destruct (query_local_db env SelectPing _) as [w3 [r|e|]];
      try discriminate.
    destruct (Truvi_main env fuel _) as [w5 [u|e|]]; discriminate.
Qed.

Lemma main_raise_untouched (env : Env) (fuel : nat) (w w' : World) (e : exn) :
  main env fuel w = (w', Raise e) -> w' = w.
Proof.
  unfold main, bind, getattr.
  destruct (dict_get "api_filters" (attrs w)).
  - destruct (try_body env fuel w) as [w1 [u|e1|]]; discriminate.
  - intros H; inversion H; reflexivity.
Qed.

Lemma Truvi_main_raise_untouched (env : Env) (fuel : nat) (w w' : World)
  (e : exn) :
  Truvi_main env fuel w = (w', Raise e) ->
  raw_data w' = raw_data w /\ requests w' = requests w
  /\ final_csv w' = final_csv w.
Proof.
  unfold Truvi_main.
  destruct (dict_has "main" (attrs w)).
  - intros H; inversion H; auto.
  - destruct (dict_has "logger" (attrs w)).
    + destruct (dict_get "api_filters" (attrs w)).
      * destruct (dict_has "engine" (attrs w)); intros H; inversion H; auto.
      * intros H; inversion H; auto.
    + intros H. apply main_raise_untouched in H. subst; auto.
Qed.

(** A process that ends by an exit or by an exception nobody caught has
    not started the run: the staging table and the csv file are as they
    were and no request has been sent. *)
Theorem script_main_abort_before_run (sc : Script) (env : Env) (fuel : nat)
  (argv : list string) (w : World) :
  (forall v, snd (script_main sc env fuel argv w) <> Returned v) ->
  snd (script_main sc env fuel argv w) <> Unfinished ->
  raw_data (fst (script_main sc env fuel argv w)) = raw_data w
  /\ requests (fst (script_main sc env fuel argv w)) = requests w
  /\ final_csv (fst (script_main sc env fuel argv w)) = final_csv w.
Proof.
  unfold script_main.
  destruct (negb (List.length argv =? 2)%nat); [intros; repeat split|].
  destruct (parse_config_file _ _ _ _) as [lg [cfg|e|]];
    [|intros; repeat split|intros; repeat split].
  destruct (dict_get "Database" cfg) as [d|]; [|intros; repeat split].
  destruct (engine_error sc d); [intros; repeat split|].
  match goal with
  | |- context [query_local_db env SelectPing ?w2] =>
      destruct (@query_select_reads env SelectPing w2) as [R C];
        [discriminate|];
      pose proof (calm_query env SelectPing w2) as [_ Q];
      destruct (query_local_db env SelectPing w2) as [w3 [r|e|]];
        simpl in R, C, Q
  end; [|intros; repeat split; assumption|intros; repeat split; assumption].
  destruct (Truvi_main env fuel _) as [w5 [u|e|]] eqn:Hm; simpl.
  - intros H; exfalso; apply (H 0%Z); reflexivity.
  - intros _ _. apply Truvi_main_raise_untouched in Hm.
    destruct Hm as (H1 & H2 & H3); simpl in *.
    repeat split; congruence.
  - intros _ H; exfalso; apply H; reflexivity.
Qed.

(** With a file [ConfigParser] could read and that has no [Database]
    section, the process ends with the [ValueError] of [parse_config],
    after the critical record, before any database operation. *)
Theorem script_main_missing_database (sc : Script) (env : Env) (fuel : nat)
  (argv : list string) (w : World) (parser : ConfigParser)
  (bad : string -> option exn) :
  List.length argv = 2 ->
  read_config sc (path_join (script_dir sc) (nth 1 argv ""))
  = Readable parser bad ->
  has_section parser "Database" = false ->
  snd (script_main sc env fuel argv w)
  = Uncaught (mkExn ValueError
                (missing_section_msg "Database"
                   (path_join (script_dir sc) (nth 1 argv ""))))
  /\ db_ops (fst (script_main sc env fuel argv w)) = db_ops w
  /\ logger (fst (script_main sc env fuel argv w))
     = logger w
       ++ [(DEBUG, ("Starting " ++ script_file sc)%string);
           (CRITICAL, missing_section_msg "Database"
                        (path_join (script_dir sc) (nth 1 argv "")))].
Proof.
  intros Hlen Hread Hsec.
  unfold script_main, parse_config_file. rewrite Hlen, Hread, Hsec; simpl.
  repeat split. unfold emit. now rewrite <- app_assoc.
Qed.

Lemma parse_config_file_ret_required (filename required : string)
  (file : config_file) (lg lg' : Logger) (cfg : Config) :
  parse_config_file filename required file lg = (lg', Ret cfg) ->
  exists d, dict_get required cfg = Some d.
Proof.
  intros H.
  destruct (parse_config_file_ret_inv _ _ _ _ H) as (p & bad & _ & _ & Hp).
  eexists. exact (parse_config_ret_required _ _ _ _ Hp).
Qed.

Lemma query_ping_ok (env : Env) (w : World) :
  db_fault env (db_ops w) = None ->
  query_local_db env SelectPing w
  = (log DEBUG "SELECT 'janwashere'; executed" (tick_db w),
     Ret (RowSet [[CStr "janwashere"]])).
Proof. intros H; unfold query_local_db; now rewrite H. Qed.

(** Once the configuration is loaded, the engine built, the connection
    tested, and the configuration has an [api_filters] section and no
    section named after the object's own attributes or methods, the process
    can only return 0, with "Script complete" as its last record: a failure
    of the run behind the boundary of [Truvi.main] does not change the
    result. *)
Theorem script_main_returns_zero (sc : Script) (env : Env) (fuel : nat)
  (argv : list string) (w : World) (cfg : Config) :
  List.length argv = 2 ->
  snd (parse_config_file (path_join (script_dir sc) (nth 1 argv ""))
         "Database"
         (read_config sc (path_join (script_dir sc) (nth 1 argv "")))
         (logger (log DEBUG ("Starting " ++ script_file sc) w)))
  = Ret cfg ->
  (forall d, dict_get "Database" cfg = Some d -> engine_error sc d = None) ->
  db_fault env (db_ops w) = None ->
  intact cfg = true ->
  dict_has "api_filters" cfg = true ->
  snd (script_main sc env fuel argv w) = Unfinished
  \/ (snd (script_main sc env fuel argv w) = Returned 0
      /\ last (logger (fst (script_main sc env fuel argv w))) (DEBUG, "")
         = (INFO, "Script complete")).
Proof.
  intros Hlen Hparse Hengine Hping Hintact Hattr.
  unfold script_main. rewrite Hlen; simpl negb; cbv iota.
  destruct (parse_config_file _ _ _ _) as [lg r] eqn:Hp.
  simpl in Hparse. subst r.
  destruct (parse_config_file_ret_required _ _ _ _ Hp) as [d Hd].
  rewrite Hd, (Hengine d Hd).
  match goal with
  | |- context [query_local_db env SelectPing ?w2] =>
      rewrite (@query_ping_ok env w2 Hping)
  end.
  match goal with
  | |- context [Truvi_main env fuel ?obj] =>
      rewrite (@Truvi_main_intact env fuel obj Hintact);
      rewrite (@main_with_api_filters env fuel obj Hattr);
      destruct (try_body env fuel obj) as [w1 [u|e|]]
  end.
  - right; split; [reflexivity|]. simpl. unfold emit. apply last_last.
  - right; split; [reflexivity|]. simpl. unfold emit. apply last_last.
  - left; reflexivity.
Qed.

(** ** The further properties on the scenarios *)

Ltac nodup_strings :=
  repeat (constructor;
          [simpl; intros H;
           repeat (destruct H as [H|H]; [discriminate H|]); exact H|]);
  constructor.


Lemma parse_config_required_present_witness :
  parse_config "config.ini" "Database" demo_parser [] = ([], Ret demo_loaded)
  /\ dict_get "Database" demo_loaded
     = Some (converted_items (items demo_parser "Database") []).
Proof.
  assert (H1 : parse_config "config.ini" "Database" demo_parser []
               = ([], Ret demo_loaded)) by reflexivity.
  split; [exact H1|].
  exact (@parse_config_required_present "config.ini" "Database"
           demo_parser [] [] demo_loaded H1).
Defined.

Lemma check_write_df_failure_writes_nothing_witness :
  snd (check_write_df db_down_env (demo_world, demo_page1)) = Raise db_down
  /\ raw_data (fst (fst (check_write_df db_down_env (demo_world, demo_page1))))
     = raw_data demo_world.
Proof.
  assert (H1 : snd (check_write_df db_down_env (demo_world, demo_page1))
               = Raise db_down) by (vm_compute; reflexivity).
  split; [exact H1|].
  exact (@check_write_df_failure_writes_nothing db_down_env demo_world
           demo_page1 db_down H1).
Defined.

Lemma check_write_df_appends_witness :
  check_write_df demo_env (demo_world, demo_page1) = (demo_checked, Ret tt)
  /\ df_empty demo_page1 = false
  /\ raw_data (fst demo_checked) = raw_data demo_world ++ rows_of (snd demo_checked)
  /\ df_columns (snd demo_checked) = df_columns demo_page1
  /\ List.length (raw_data (fst demo_checked))
     = List.length (raw_data demo_world) + df_len demo_page1
  /\ db_ops (fst demo_checked) = S (db_ops demo_world).
Proof.
  assert (H1 : check_write_df demo_env (demo_world, demo_page1)
               = (demo_checked, Ret tt)) by (vm_compute; reflexivity).
  assert (H2 : df_empty demo_page1 = false) by reflexivity.
  split; [exact H1|]. split; [exact H2|].
  exact (@check_write_df_appends demo_env demo_world demo_page1 demo_checked
           H1 H2).
Defined.

Lemma check_write_df_other_columns_witness :
  (forall tv, dict_get "table_values" (attrs demo_world) = Some tv ->
              ~ In "guest" (dict_keys tv))
  /\ column "guest"
       (snd (fst (check_write_df demo_env (demo_world, demo_page1))))
     = column "guest" demo_page1.
Proof.
  assert (H1 : forall tv, dict_get "table_values" (attrs demo_world) = Some tv ->
                          ~ In "guest" (dict_keys tv)).
  { intros tv H. simpl in H. inversion H; subst tv. simpl.
    intros [E|[]]. discriminate E. }
  split; [exact H1|].
  exact (@check_write_df_other_columns demo_env demo_world demo_page1
           "guest" H1).
Defined.


Lemma main_failure_keeps_csv_witness :
  (forall e' partial, to_csv_fault offline_env <> Some (e', Some partial))
  /\ snd (try_body offline_env 5 demo_world) = Raise http_503
  /\ final_csv (fst (main offline_env 5 demo_world)) = final_csv demo_world.
Proof.
  assert (H0 : forall e' partial,
             to_csv_fault offline_env <> Some (e', Some partial))
    by (intros e' partial; discriminate).
  assert (H1 : snd (try_body offline_env 5 demo_world) = Raise http_503)
    by (vm_compute; reflexivity).
  split; [exact H0|]. split; [exact H1|].
  exact (@main_failure_keeps_csv offline_env 5 demo_world http_503 H0 H1).
Defined.


Lemma main_reset_failure_witness :
  intact (attrs demo_world) = true
  /\ dict_has "api_filters" (attrs demo_world) = true
  /\ db_fault no_table_env (db_ops demo_world) = Some no_table
  /\ snd (Truvi_main no_table_env 3 demo_world) = Ret tt
  /\ requests (fst (Truvi_main no_table_env 3 demo_world)) = requests demo_world
  /\ raw_data (fst (Truvi_main no_table_env 3 demo_world)) = raw_data demo_world
  /\ In (CRITICAL,
         "truncate table data.raw_data; failed with relation data.raw_data does not exist")
        (logger (fst (Truvi_main no_table_env 3 demo_world))).
Proof.
  split; [reflexivity|]. split; [reflexivity|]. split; [reflexivity|].
  destruct (@main_reset_failure no_table_env 3 demo_world no_table
              eq_refl eq_refl eq_refl) as (Hr & Hq & Hd & _ & _ & Hl).
  split; [exact Hr|]. split; [exact Hq|]. split; [exact Hd|].
  rewrite Hl. simpl. auto.
Defined.

Lemma page_loop_consecutive_pages_witness :
  dict_get "page" (api_parameters demo_world) = Some (VInt 1)
  /\ page_loop demo_env 2 demo_world = (demo_staged, Ret tt)
  /\ exists k sent,
       requests demo_staged = requests demo_world ++ sent
       /\ List.length sent = S k
       /\ map page_of sent = pages_from 1 (S k)
       /\ dict_get "page" (api_parameters demo_staged)
          = Some (VInt (1 + Z.of_nat k)).
Proof.
  assert (H1 : dict_get "page" (api_parameters demo_world) = Some (VInt 1))
    by reflexivity.
  assert (H2 : page_loop demo_env 2 demo_world = (demo_staged, Ret tt))
    by (vm_compute; reflexivity).
  split; [exact H1|]. split; [exact H2|].
  exact (@page_loop_consecutive_pages demo_env 2 demo_world demo_staged 1
           H1 H2).
Defined.


Lemma config_page_entry_witness :
  parse_config "config.ini" "Database" demo_parser [] = ([], Ret demo_loaded)
  /\ In "api_filters" (sections demo_parser)
  /\ NoDup (map fst (items demo_parser "api_filters"))
  /\ In ("page", "1") (items demo_parser "api_filters")
  /\ isdecimal "1" = true
  /\ exists w2,
       incr_page (Truvi_new demo_loaded "/srv/truvi" boot_world) = (w2, Ret tt)
       /\ dict_get "page" (api_parameters w2)
          = Some (VInt (digits_value 0 "1" + 1)).
Proof.
  assert (H1 : parse_config "config.ini" "Database" demo_parser []
               = ([], Ret demo_loaded)) by reflexivity.
  assert (H2 : In "api_filters" (sections demo_parser))
    by (simpl; auto).
  assert (H3 : NoDup (map fst (items demo_parser "api_filters")))
    by (simpl; nodup_strings).
  assert (H4 : In ("page", "1") (items demo_parser "api_filters"))
    by (simpl; auto).
  assert (H5 : isdecimal "1" = true) by reflexivity.
  split; [exact H1|]. split; [exact H2|]. split; [exact H3|].
  split; [exact H4|]. split; [exact H5|].
  exact (proj1 (@config_page_entry "config.ini" "Database" demo_parser [] []
                  demo_loaded "/srv/truvi" boot_world "1" H1 H2 H3 H4) H5).
Defined.

Lemma script_main_abort_before_run_witness :
  (forall v, snd (script_main (demo_script database_only_parser) demo_env 3
                    ["project_classes.py"; "config.ini"] boot_world)
             <> Returned v)
  /\ snd (script_main (demo_script database_only_parser) demo_env 3
            ["project_classes.py"; "config.ini"] boot_world) <> Unfinished
  /\ raw_data (fst (script_main (demo_script database_only_parser) demo_env 3
                      ["project_classes.py"; "config.ini"] boot_world))
     = raw_data boot_world
  /\ requests (fst (script_main (demo_script database_only_parser) demo_env 3
                      ["project_classes.py"; "config.ini"] boot_world))
     = requests boot_world.
Proof.
  assert (H1 : forall v,
             snd (script_main (demo_script database_only_parser) demo_env 3
                    ["project_classes.py"; "config.ini"] boot_world)
             <> Returned v) by (intros v; vm_compute; discriminate).
  assert (H2 : snd (script_main (demo_script database_only_parser) demo_env 3
                      ["project_classes.py"; "config.ini"] boot_world)
               <> Unfinished) by (vm_compute; discriminate).
  split; [exact H1|]. split; [exact H2|].
  destruct (@script_main_abort_before_run (demo_script database_only_parser)
              demo_env 3 ["project_classes.py"; "config.ini"] boot_world
              H1 H2) as (Hr & Hq & _).
  split; [exact Hr | exact Hq].
Defined.

Lemma script_main_missing_database_witness :
  List.length ["project_classes.py"; "config.ini"] = 2
  /\ read_config (demo_script [("api", [("base_url", "http://x")])])
       (path_join
          (script_dir (demo_script [("api", [("base_url", "http://x")])]))
          (nth 1 ["project_classes.py"; "config.ini"] ""))
     = Readable [("api", [("base_url", "http://x")])] (fun _ => None)
  /\ has_section [("api", [("base_url", "http://x")])] "Database" = false
  /\ snd (script_main (demo_script [("api", [("base_url", "http://x")])])
            demo_env 3 ["project_classes.py"; "config.ini"] boot_world)
     = Uncaught (mkExn ValueError
         "Required section 'Database' not found in the /srv/truvi/utils/config.ini file")
  /\ db_ops (fst (script_main (demo_script [("api", [("base_url", "http://x")])])
                    demo_env 3 ["project_classes.py"; "config.ini"] boot_world))
     = db_ops boot_world.
Proof.
  split; [reflexivity|]. split; [reflexivity|]. split; [reflexivity|].
  destruct (@script_main_missing_database
              (demo_script [("api", [("base_url", "http://x")])])
              demo_env 3 ["project_classes.py"; "config.ini"] boot_world
              [("api", [("base_url", "http://x")])] (fun _ => None)
              eq_refl eq_refl eq_refl) as (Hr & Hd & _).
  split; [exact Hr | exact Hd].
Defined.

Lemma script_main_returns_zero_witness :
  List.length ["project_classes.py"; "config.ini"] = 2
  /\ db_fault offline_env (db_ops boot_world) = None
  /\ intact demo_loaded = true
  /\ dict_has "api_filters" demo_loaded = true
  /\ snd (script_main (demo_script demo_parser) offline_env 3
            ["project_classes.py"; "config.ini"] boot_world) = Returned 0
  /\ In (CRITICAL, "Processing failed with 503 Server Error")
        (logger (fst (script_main (demo_script demo_parser) offline_env 3
                        ["project_classes.py"; "config.ini"] boot_world))).
Proof.
  split; [reflexivity|]. split; [reflexivity|]. split; [reflexivity|].
  split; [reflexivity|].
  destruct (@script_main_returns_zero (demo_script demo_parser) offline_env 3
              ["project_classes.py"; "config.ini"] boot_world demo_loaded
              eq_refl eq_refl (fun _ _ => eq_refl) eq_refl eq_refl eq_refl)
    as [Hu|[Hr _]].
  - vm_compute in Hu. discriminate Hu.
  - split; [exact Hr|]. vm_compute. tauto.
Defined.

(** ** The configuration during a run: how often the page entry moves *)

Lemma next_page_config_incr (c : Config) (p : Z) :
  dict_get "page" (params_of c) = Some (VInt p) ->
  next_page_config c
  = dict_set "api_filters" (dict_set "page" (VInt (p + 1)) (params_of c)) c.
Proof.
  unfold next_page_config, params_of.
  destruct (dict_get "api_filters" c) as [d|]; [|discriminate].
  now intros ->.
Qed.

Lemma next_page_config_value (c : Config) (p : Z) :
  dict_get "page" (params_of c) = Some (VInt p) ->
  dict_get "page" (params_of (next_page_config c)) = Some (VInt (p + 1)).
Proof.
  intros H. rewrite (next_page_config_incr c H).
  unfold params_of at 1. rewrite dict_get_set_same. apply dict_get_set_same.
Qed.

Lemma iter_next_page_config_value (k : nat) (c : Config) (p : Z) :
  dict_get "page" (params_of c) = Some (VInt p) ->
  dict_get "page" (params_of (Nat.iter k next_page_config c))
  = Some (VInt (p + Z.of_nat k)).
Proof.
  intros H. induction k as [|k IH].
  - simpl. rewrite H. do 2 f_equal. lia.
  - change (Nat.iter (S k) next_page_config c)
      with (next_page_config (Nat.iter k next_page_config c)).
    rewrite (next_page_config_value _ IH). do 2 f_equal. lia.
Qed.

(** Every turn of the loop calls [requests.get] at most once, and the page
    entry has moved once for each turn that went on to a next one. *)
Lemma page_loop_increments (env : Env) (n : nat) :
  forall w : World,
  exists k sent,
    requests (fst (page_loop env n w)) = requests w ++ sent
    /\ attrs (fst (page_loop env n w)) = Nat.iter k next_page_config (attrs w)
    /\ k <= List.length sent <= S k
    /\ (forall u, snd (page_loop env n w) = Ret u -> List.length sent = S k).
Proof.
  induction n as [|n IH]; intros w; simpl.
  - exists 0, []. rewrite app_nil_r. repeat split; auto. discriminate.
  - rewrite loop_turn_unfold.
    destruct (get_api_data_cases env (api_parameters w) w)
      as [[e ->]|(u & r & Hr & ->)].
    { exists 0, []. rewrite app_nil_r. simpl. repeat split; auto. discriminate. }
    set (req := mkReq u (api_parameters w)).
    assert (Hone : forall (w1 : World) (o : outcome unit),
               requests w1 = requests w ++ [req] -> attrs w1 = attrs w ->
               (forall x, o = Ret x -> False) ->
               exists k sent,
                 requests (fst (w1, o)) = requests w ++ sent
                 /\ attrs (fst (w1, o)) = Nat.iter k next_page_config (attrs w)
                 /\ k <= List.length sent <= S k
                 /\ (forall x, snd (w1, o) = Ret x -> List.length sent = S k)).
    { intros w1 o Hq Ha Ho. exists 0, [req]. simpl.
      repeat split; auto; intros x Hx; destruct (Ho x Hx). }
    destruct r as [[df info]|e|]; [| |contradiction].
    2:{ apply Hone; try reflexivity. discriminate. }
    rewrite after_fetch_cases.
    pose proof (calm_check_write_df env
                  (fetched info df (record_request req w), df)) as Hcalm.
    destruct (check_write_df env (fetched info df (record_request req w), df))
      as [s [[]|e|]]; unfold on_fst, calm in Hcalm; simpl in Hcalm;
      destruct Hcalm as [Hattrs Hreqs].
    2:{ apply Hone; auto. discriminate. }
    2:{ apply Hone; auto. discriminate. }
    destruct (all_pages_fetched info).
    { exists 0, [req]. simpl. repeat split; auto. }
    destruct (incr_page_cases (fst s)) as [(e & -> & _)|(p & Hp & ->)].
    { apply Hone; auto. discriminate. }
    match goal with
    | |- context [page_loop env n ?w2] =>
        destruct (IH w2) as (k2 & sent2 & Hq2 & Ha2 & Hle2 & Hret2)
    end.
    simpl in Hq2, Ha2.
    exists (S k2), (req :: sent2). split; [|split; [|split]].
    + rewrite Hq2, Hreqs. now rewrite <- app_assoc.
    + rewrite Ha2.
      change (api_parameters (fst s)) with (params_of (attrs (fst s))) in *.
      rewrite <- (next_page_config_incr (attrs (fst s)) Hp), Hattrs.
      symmetry. apply Nat.iter_succ_r.
    + simpl. lia.
    + intros x Hx. simpl. f_equal. now apply (Hret2 x).
Qed.

(** C2 (amended): a run changes the configuration in one place only, the
    [page] entry of the [api_filters] section, which the page loop moves on
    by one for every turn that goes on to a next one: after [k] such steps
    the run has called the endpoint [k + 1] times when its page loop
    returned ([k] or [k + 1] times when the run was cut short), and an
    integer page entry [p] has become [p + k].  Every other section and every
    other entry of [api_filters] is at the end of the run what it was at the
    start. *)
Theorem main_config_frame (env : Env) (fuel : nat) (w : World) :
  (exists k sent,
     requests (fst (main env fuel w)) = requests w ++ sent
     /\ attrs (fst (main env fuel w)) = Nat.iter k next_page_config (attrs w)
     /\ k <= List.length sent <= S k
     /\ (dict_has "api_filters" (attrs w) = true ->
         forall w0 r u,
           query_local_db env TruncateRaw w = (w0, Ret r) ->
           snd (page_loop env fuel w0) = Ret u ->
           List.length sent = S k)
     /\ (forall p, dict_get "page" (api_parameters w) = Some (VInt p) ->
           dict_get "page" (api_parameters (fst (main env fuel w)))
           = Some (VInt (p + Z.of_nat k))))
  /\ (forall sec, sec <> "api_filters" ->
        dict_get sec (attrs (fst (main env fuel w))) = dict_get sec (attrs w))
  /\ (forall key, key <> "page" ->
        dict_get key (api_parameters (fst (main env fuel w)))
        = dict_get key (api_parameters w)).
Proof.
  assert (Hcount : exists k sent,
     requests (fst (main env fuel w)) = requests w ++ sent
     /\ attrs (fst (main env fuel w)) = Nat.iter k next_page_config (attrs w)
     /\ k <= List.length sent <= S k
     /\ (dict_has "api_filters" (attrs w) = true ->
         forall w0 r u,
           query_local_db env TruncateRaw w = (w0, Ret r) ->
           snd (page_loop env fuel w0) = Ret u ->
           List.length sent = S k)).
  { destruct (dict_has "api_filters" (attrs w)) eqn:Ha.
    - rewrite (main_with_api_filters env fuel w Ha).
      unfold try_body, bind.
      pose proof (calm_query env TruncateRaw w) as [Hqa Hqr].
      destruct (query_local_db env TruncateRaw w) as [w0 [r|e|]];
        simpl in Hqa, Hqr.
      + destruct (page_loop_increments env fuel w0)
          as (k & sent & Hq & Hat & Hle & Hret).
        rewrite Hqa, Hqr in *.
        pose proof (calm_post_processing env (fst (page_loop env fuel w0)))
          as [Hpa Hpr].
        exists k, sent.
        destruct (page_loop env fuel w0) as [w1 [u|e|]] eqn:Hl; simpl in *.
        * assert (Hlen : List.length sent = S k) by (apply (Hret u); reflexivity).
          destruct (post_processing env w1) as [w2 [u2|e2|]]; simpl in *;
            (split; [congruence|]; split; [congruence|]; split; [exact Hle|]);
            intros _ w0' r' u' E _; exact Hlen.
        * split; [exact Hq|]. split; [exact Hat|]. split; [exact Hle|].
          intros _ w0' r' u' E Hu. inversion E; subst.
          rewrite Hl in Hu. discriminate Hu.
        * split; [exact Hq|]. split; [exact Hat|]. split; [exact Hle|].
          intros _ w0' r' u' E Hu. inversion E; subst.
          rewrite Hl in Hu. discriminate Hu.
      + exists 0, []. simpl. rewrite app_nil_r.
        repeat split; auto. intros _ w0' r' u' E. discriminate E.
      + exists 0, []. simpl. rewrite app_nil_r.
        repeat split; auto. intros _ w0' r' u' E. discriminate E.
    - unfold main, bind, getattr. unfold dict_has in Ha.
      destruct (dict_get "api_filters" (attrs w)); [discriminate|].
      exists 0, []. simpl. rewrite app_nil_r.
      repeat split; auto. intros E; discriminate E. }
  destruct Hcount as (k & sent & Hq & Hat & Hle & Hret).
  split; [|split].
  - exists k, sent. repeat split; auto; try apply Hle.
    intros p Hp.
    change (dict_get "page" (params_of (attrs (fst (main env fuel w))))
            = Some (VInt (p + Z.of_nat k))).
    rewrite Hat. now apply iter_next_page_config_value.
  - intros sec Hne. rewrite Hat. now apply iter_next_page_config_other.
  - intros key Hne.
    change (dict_get key (params_of (attrs (fst (main env fuel w))))
            = dict_get key (params_of (attrs w))).
    rewrite Hat. now apply iter_next_page_config_params.
Qed.

(** A write that fails after the file has been opened: the run is logged as
    failed and the csv file holds what the failed write left. *)
Example post_processing_partial_write :
  let env := mkEnv (api_server demo_env) (fun _ => None)
                   (fun raw => map (map snd) raw) demo_columns
                   demo_to_datetime
                   (Some (mkExn OtherError "OSError: No space left on device",
                          Some (mkDF demo_columns []))) in
  snd (post_processing env demo_staged)
  = Raise (mkExn OtherError "OSError: No space left on device")
  /\ final_csv (fst (post_processing env demo_staged))
     = Some (mkDF demo_columns []).
Proof. vm_compute. split; reflexivity. Qed.
